(** * boulder-publisher: startup, chain-bundle resolution and shutdown

    A shallow embedding of [cmd/boulder-publisher/main.go].  The program is
    one [main] function that reads a configuration, resolves the CT
    submission bundles, and brings up a gRPC server.  Everything it calls
    outside the file (config reading, certificate loading, the gRPC
    server, ...) is a collaborator; their results are taken from a record
    of oracles, and every call is recorded in a trace so that the order of
    calls can be stated. *)

From Stdlib Require Import ZArith List Lia.
From stdpp Require Import gmap strings list fin_maps.
Import ListNotations.

Local Open Scope string_scope.
Local Open Scope list_scope.

(** ** Certificates *)

(** [ct.ASN1Cert]: a raw DER blob. *)
Record ASN1Cert := { Data : list Byte.byte }.

(** [x509.Certificate]; [main] only reads its [Raw] field. *)
Record x509_Certificate := { Raw : list Byte.byte }.

(** ** Process model: a trace of collaborator calls, and [os.Exit] *)

Inductive exit_or (A : Type) :=
| Ret (a : A)
| Exit (code : Z).
Arguments Ret {A} a.
Arguments Exit {A} code.

(** A computation yields the calls it made, in order, and either a value
    or the status passed to [os.Exit]. *)
Definition M (E A : Type) : Type := list E * exit_or A.

Definition ret {E A} (a : A) : M E A := ([], Ret a).

(** [m] run after the calls [t] have been made. *)
Definition after {E A} (t : list E) (m : M E A) : M E A := (t ++ m.1, m.2).

Definition bind {E A B} (m : M E A) (k : A → M E B) : M E B :=
  match m with
  | (t, Ret a) => after t (k a)
  | (t, Exit code) => (t, Exit code)
  end.

#[export] Instance M_ret {E} : MRet (M E) := @ret E.
#[export] Instance M_bind {E} : MBind (M E) := λ A B k m, bind m k.

Definition emit {E} (e : E) : M E unit := ([e], Ret tt).

(** [os.Exit(code)]: nothing after it runs. *)
Definition os_Exit {E A} (code : Z) : M E A := ([], Exit code).

Definition trace {E A} (m : M E A) : list E := m.1.

(** The status the process ends with: [main] returning is status 0. *)
Definition exit_status {E A} (m : M E A) : Z :=
  match m.2 with
  | Ret _ => 0
  | Exit code => code
  end.

(** A Go [(value, error)] result. *)
Inductive result (error A : Type) :=
| Ok (a : A)
| Err (e : error).
Arguments Ok {error A} a.
Arguments Err {error A} e.

(** ** Configuration *)

(** [cmd.GRPCServerConfig]; [main] only touches [Address]. *)
Record GRPCServerConfig := { Address : string }.

(** The command line: [-addr], [-debug-addr], [-config]. *)
Record flags := {
  grpcAddr : string;
  debugAddr : string;
  configFile : string
}.

Section Publisher.

(** Types declared in other packages. *)
Context {IssuerNameID : Type} `{Countable IssuerNameID}. (* issuance.IssuerNameID *)
Context {error : Type}.                 (* a non-nil Go error *)
Context {SyslogConfig : Type}.          (* cmd.SyslogConfig *)
Context {TLSConfig : Type}.             (* cmd.TLSConfig *)
Context {issuance_Certificate : Type}.  (* *issuance.Certificate *)

(** [cmd.ServiceConfig], embedded in [config.Publisher]. *)
Record ServiceConfig := {
  DebugAddr : string;
  GRPC : GRPCServerConfig;
  TLS : TLSConfig
}.

(** [Chains] is a Go slice: [None] is the nil slice (key absent from the
    JSON file, or null), [Some l] a non-nil slice, possibly of length 0
    (the JSON value []). *)
Record Publisher_t := {
  Service : ServiceConfig;
  Features : gmap string bool;
  BlockProfileRate : Z;
  UserAgent : string;
  Chains : option (list (list string))
}.

Record CT_t := { IntermediateBundleFilename : string }.
Record Common_t := { CT : CT_t }.

Record config := {
  Publisher : Publisher_t;
  Syslog : SyslogConfig;
  Common : Common_t
}.

(** Field assignments of lines 72, 75 and 78. *)
Definition set_GRPC_Address (a : string) (c : config) : config :=
  let p := Publisher c in
  let s := Service p in
  {| Publisher :=
       {| Service := {| DebugAddr := DebugAddr s;
                        GRPC := {| Address := a |};
                        TLS := TLS s |};
          Features := Features p;
          BlockProfileRate := BlockProfileRate p;
          UserAgent := UserAgent p;
          Chains := Chains p |};
     Syslog := Syslog c;
     Common := Common c |}.

Definition set_DebugAddr (a : string) (c : config) : config :=
  let p := Publisher c in
  let s := Service p in
  {| Publisher :=
       {| Service := {| DebugAddr := a;
                        GRPC := GRPC s;
                        TLS := TLS s |};
          Features := Features p;
          BlockProfileRate := BlockProfileRate p;
          UserAgent := UserAgent p;
          Chains := Chains p |};
     Syslog := Syslog c;
     Common := Common c |}.

Definition set_UserAgent (ua : string) (c : config) : config :=
  let p := Publisher c in
  {| Publisher :=
       {| Service := Service p;
          Features := Features p;
          BlockProfileRate := BlockProfileRate p;
          UserAgent := ua;
          Chains := Chains p |};
     Syslog := Syslog c;
     Common := Common c |}.

(** ** Collaborators *)

(** What the packages [main] calls return.  [Serve] is the error (or
    nil) that [grpcSrv.Serve(l)] eventually returns. *)
Record Collaborators := {
  ReadConfigFile : string → result error config;
  features_Set : gmap string bool → option error;
  LoadChain : list string → result error (issuance_Certificate * list ASN1Cert);
  NameID : issuance_Certificate → IssuerNameID;
  LoadCertBundle : string → result error (list x509_Certificate);
  TLS_Load : TLSConfig → option error;
  NewServer : GRPCServerConfig → option error;
  Serve : option error;
  shutdown_induced : error → bool
}.

(** The calls [main] makes, with the arguments that matter. *)
Inductive event :=
| flag_Usage
| ReadConfigFile_call (path : string)
| features_Set_call (fs : gmap string bool)
| SetBlockProfileRate (rate : Z)
| StatsAndLogging (syslog : SyslogConfig) (addr : string)
| logger_Info
| logger_AuditErr (msg : string)
| LoadChain_call (files : list string)
| LoadCertBundle_call (file : string)
| TLS_Load_call
| Clock
| publisher_New (bundle : list ASN1Cert)
                (bundles : gmap IssuerNameID (list ASN1Cert))
                (userAgent : string)
| NewServerMetrics
| NewServer_call (grpc : GRPCServerConfig)
| NewPublisherServerWrapper
| RegisterPublisherServer
| health_NewServer
| RegisterHealthServer
| go_CatchSignals
| Serve_call
| Failure (msg : string) (err : error).

(** Modelled from the spec: the failing branch of [cmd.FailOnError],
    which is declared in package [cmd], outside this file.  Section 6 of
    the specification: the process "exits with a non-zero status and a
    descriptive message on any startup/configuration failure".  The
    report carries the caller's message and the error. *)
Definition fatal {A} (msg : string) (e : error) : M event A :=
  ([Failure msg e], Exit 1%Z).

(** Modelled from the spec: [cmd.FailOnError], declared in package [cmd],
    outside this file.  A nil error lets the caller go on; a non-nil one
    is [fatal]. *)
Definition FailOnError (err : option error) (msg : string) : M event unit :=
  match err with
  | None => mret tt
  | Some e => fatal msg e
  end.

(** [x, err := f(...); cmd.FailOnError(err, msg)] *)
Definition check {A} (r : result error A) (msg : string) : M event A :=
  match r with
  | Ok a => mret a
  | Err e => fatal msg e
  end.

(** Modelled from the spec: [cmd.FilterShutdownErrors] is declared in
    package [cmd], outside this file.  Section 4.2: errors that occur
    purely as a consequence of a requested shutdown "must be classified
    as benign and suppressed"; only genuine failures are surfaced.  The
    classification itself is the collaborator's [shutdown_induced]. *)
Definition FilterShutdownErrors (w : Collaborators) (err : option error)
  : option error :=
  match err with
  | None => None
  | Some e => if shutdown_induced w e then None else Some e
  end.

Definition default_UserAgent : string := "certificate-transparency-go/1.0".

Section Main.

Variable w : Collaborators.

(** Lines 94-100: the loop over [c.Publisher.Chains].  The map
    assignment [bundles[id] = bundle] is an insert that replaces any
    entry already stored under [id]. *)
Fixpoint load_chains (chains : list (list string))
    (bundles : gmap IssuerNameID (list ASN1Cert))
  : M event (gmap IssuerNameID (list ASN1Cert)) :=
  match chains with
  | [] => mret bundles
  | files :: rest =>
      emit (LoadChain_call files);;
      '(issuer, bundle) ← check (LoadChain w files) "Failed to load chain";
      let id := NameID w issuer in
      load_chains rest (<[id := bundle]> bundles)
  end.

(** Lines 106-108: [bundle = append(bundle, ct.ASN1Cert{Data: cert.Raw})]
    for each certificate of the PEM bundle. *)
Definition append_certs (bundle : list ASN1Cert)
    (pemBundle : list x509_Certificate) : list ASN1Cert :=
  foldl (λ bundle cert, bundle ++ [ {| Data := Raw cert |} ]) bundle pemBundle.

(** Lines 91-109: the two bundle sources. *)
Definition resolve_bundles (c : config)
  : M event (list ASN1Cert * gmap IssuerNameID (list ASN1Cert)) :=
  let bundle : list ASN1Cert := [] in
  let bundles : gmap IssuerNameID (list ASN1Cert) := ∅ in
  match Chains (Publisher c) with
  | Some chains =>
      bundles ← load_chains chains bundles;
      mret (bundle, bundles)
  | None =>
      let file := IntermediateBundleFilename (CT (Common c)) in
      emit (LoadCertBundle_call file);;
      pemBundle ← check (LoadCertBundle w file) "Failed to load CT submission bundle";
      mret (append_certs bundle pemBundle, bundles)
  end.

(** Lines 71-79: command-line overrides and the default user agent. *)
Definition apply_overrides (f : flags) (c : config) : config :=
  let c := if decide (grpcAddr f = "") then c
           else set_GRPC_Address (grpcAddr f) c in
  let c := if decide (debugAddr f = "") then c
           else set_DebugAddr (debugAddr f) c in
  if decide (UserAgent (Publisher c) = "")
  then set_UserAgent default_UserAgent c
  else c.

(** Lines 111-132: the server is built around the resolved bundles and
    serves until [Serve] returns.  The trace is that of the goroutine
    running [main]: [go_CatchSignals] records that the watcher is started
    with the closure of lines 126-129; the calls that closure makes, on
    the watcher's goroutine, are [shutdown_callback] below. *)
Definition serve (c : config) (bundle : list ASN1Cert)
    (bundles : gmap IssuerNameID (list ASN1Cert)) : M event unit :=
  emit TLS_Load_call;;
  FailOnError (TLS_Load w (TLS (Service (Publisher c)))) "TLS config";;
  emit Clock;;
  emit (publisher_New bundle bundles (UserAgent (Publisher c)));;
  emit NewServerMetrics;;
  emit (NewServer_call (GRPC (Service (Publisher c))));;
  FailOnError (NewServer w (GRPC (Service (Publisher c))))
              "Unable to setup Publisher gRPC server";;
  emit NewPublisherServerWrapper;;
  emit RegisterPublisherServer;;
  emit health_NewServer;;
  emit RegisterHealthServer;;
  emit go_CatchSignals;;
  emit Serve_call;;
  FailOnError (FilterShutdownErrors w (Serve w))
              "Publisher gRPC service failed".

(** Lines 53-133.  [defer logger.AuditPanic()] only acts on a panic, and
    [os.Exit] does not run deferred calls; it leaves no event. *)
Definition main (f : flags) : M event unit :=
  (if decide (configFile f = "")
   then emit flag_Usage;; os_Exit 1
   else mret tt);;
  emit (ReadConfigFile_call (configFile f));;
  c ← check (ReadConfigFile w (configFile f))
            "Reading JSON config file into config structure";
  emit (features_Set_call (Features (Publisher c)));;
  FailOnError (features_Set w (Features (Publisher c)))
              "Failed to set feature flags";;
  emit (SetBlockProfileRate (BlockProfileRate (Publisher c)));;
  let c := apply_overrides f c in
  emit (StatsAndLogging (Syslog c) (DebugAddr (Service (Publisher c))));;
  emit logger_Info;;
  (if decide (IntermediateBundleFilename (CT (Common c)) = "")
   then match Chains (Publisher c) with
        | None =>
            emit (logger_AuditErr "No CT submission bundle or chains provided");;
            os_Exit 1
        | Some _ => mret tt
        end
   else mret tt);;
  '(bundle, bundles) ← resolve_bundles c;
  serve c bundle bundles.

(** ** Vocabulary for the statements *)

(** The calls made between reading the file [c0] and the bundle-source
    test of line 86. *)
Definition startup_calls (f : flags) (c0 : config) : list event :=
  [ ReadConfigFile_call (configFile f);
    features_Set_call (Features (Publisher c0));
    SetBlockProfileRate (BlockProfileRate (Publisher c0));
    StatsAndLogging (Syslog (apply_overrides f c0))
      (DebugAddr (Service (Publisher (apply_overrides f c0))));
    logger_Info ].

(** The configuration file is named, read as [c0], and its feature flags
    are accepted: [main] gets as far as line 69. *)
Definition reads_config (f : flags) (c0 : config) : Prop :=
  configFile f ≠ "" ∧
  ReadConfigFile w (configFile f) = Ok c0 ∧
  features_Set w (Features (Publisher c0)) = None.

(** Every chain of [chains] loads, with the results [rs], in order. *)
Definition chains_load (chains : list (list string))
    (rs : list (issuance_Certificate * list ASN1Cert)) : Prop :=
  Forall2 (λ files r, LoadChain w files = Ok r) chains rs.

(** The issuer identifiers of loaded chains, in order. *)
Definition issuer_ids (rs : list (issuance_Certificate * list ASN1Cert))
  : list IssuerNameID :=
  map (λ r, NameID w r.1) rs.

(** One pass of the loop body on a loaded chain: line 99. *)
Definition store (bundles : gmap IssuerNameID (list ASN1Cert))
    (r : issuance_Certificate * list ASN1Cert)
  : gmap IssuerNameID (list ASN1Cert) :=
  <[NameID w r.1 := r.2]> bundles.

(** The calls of lines 111-131, which only happen once the bundles are
    resolved. *)
Definition serve_event (e : event) : bool :=
  match e with
  | TLS_Load_call | Clock | publisher_New _ _ _ | NewServerMetrics
  | NewServer_call _ | NewPublisherServerWrapper | RegisterPublisherServer
  | health_NewServer | RegisterHealthServer | go_CatchSignals
  | Serve_call => true
  | _ => false
  end.

(** A parsed PEM bundle as raw blobs, element by element and in order. *)
Definition flat_bundle (certs : list x509_Certificate) : list ASN1Cert :=
  map (λ cert, {| Data := Raw cert |}) certs.

(** Startup takes the legacy path: [file] is loaded, and the submission
    service is built around the blobs of [certs] and no per-issuer entry. *)
Definition legacy_path (f : flags) (file : string)
    (certs : list x509_Certificate) : Prop :=
  LoadCertBundle_call file ∈ trace (main f) ∧
  ∃ ua, publisher_New (flat_bundle certs) ∅ ua ∈ trace (main f).

(** The listener and the health endpoint are created by these calls. *)
Definition creates_endpoint (e : event) : bool :=
  match e with
  | NewServer_call _ | health_NewServer => true
  | _ => false
  end.

(** The process ends with a non-zero status without having created the
    listener or the health endpoint. *)
Definition fails_before_endpoints (f : flags) : Prop :=
  exit_status (main f) ≠ 0%Z ∧
  ∀ e, e ∈ trace (main f) → creates_endpoint e = false.

(** The calls that bring up a network endpoint, counted as the
    specification lists them (listener, health endpoint, debug endpoint).
    [bgrpc.NewServer] binds the gRPC listener and [health.NewServer] makes
    the health endpoint.  The debug server address (the flag of line 55)
    has one consumer, [cmd.StatsAndLogging] at line 81; what that call
    does with it is outside this file, so the call is counted. *)
Definition acquires_network_resource (e : event) : bool :=
  match e with
  | StatsAndLogging _ _ | NewServer_call _ | health_NewServer => true
  | _ => false
  end.

(** The process ends with a non-zero status without any such call. *)
Definition fails_before_network_resources (f : flags) : Prop :=
  exit_status (main f) ≠ 0%Z ∧
  ∀ e, e ∈ trace (main f) → acquires_network_resource e = false.

(** Line 57, [flag.Parse()].  The flag package is Go's own: with the
    default flag set it either returns, the three flags filled in, or
    prints the usage and ends the process itself, with a status of its
    choosing (2 for a command line it rejects; for [-h], 0 or 2 depending
    on the Go release). *)
Inductive parse_outcome :=
| Parsed (f : flags)
| Usage_exit (code : Z).

(** Lines 53-133 with the outcome of line 57: the whole process. *)
Definition program (p : parse_outcome) : M event unit :=
  match p with
  | Parsed f => main f
  | Usage_exit code => emit flag_Usage;; os_Exit code
  end.

End Main.

End Publisher.

(** ** Shutdown: the callback handed to [cmd.CatchSignals] (lines 126-129) *)

(** [healthpb.HealthCheckResponse_ServingStatus], the two values used. *)
Inductive ServingStatus := SERVING | NOT_SERVING.

Inductive shutdown_call := hs_Shutdown_call | GracefulStop_call.

(** The health server [hs] and the gRPC server [grpcSrv] while serving:
    what the health endpoint reports, whether the listener takes new
    requests, the requests accepted and not yet answered, the requests
    answered, and the shutdown calls made so far. *)
Record server (request : Type) := {
  health : ServingStatus;
  accepting : bool;
  in_flight : list request;
  completed : list request;
  calls : list shutdown_call
}.
Arguments health {request} s.
Arguments accepting {request} s.
Arguments in_flight {request} s.
Arguments completed {request} s.
Arguments calls {request} s.

Section Shutdown.

Context {request : Type}.

(** A request reaching the listener. *)
Definition arrive (r : request) (s : server request) : server request :=
  if accepting s
  then {| health := health s; accepting := accepting s;
          in_flight := in_flight s ++ [r];
          completed := completed s; calls := calls s |}
  else s.

(** Modelled from the spec: [hs.Shutdown] belongs to the gRPC health
    package.  Section 4.2: the "health handler is marked not-serving". *)
Definition hs_Shutdown (s : server request) : server request :=
  {| health := NOT_SERVING; accepting := accepting s;
     in_flight := in_flight s; completed := completed s;
     calls := calls s ++ [hs_Shutdown_call] |}.

(** Modelled from the spec: [grpcSrv.GracefulStop] belongs to the gRPC
    package.  Section 4.2: the "listener performs a graceful stop:
    in-flight requests are allowed to complete; no new requests are
    accepted". *)
Definition GracefulStop (s : server request) : server request :=
  {| health := health s; accepting := false;
     in_flight := [];
     completed := completed s ++ in_flight s;
     calls := calls s ++ [GracefulStop_call] |}.

(** Lines 126-129: [func() { hs.Shutdown(); grpcSrv.GracefulStop() }]. *)
Definition shutdown_callback (s : server request) : server request :=
  let s := hs_Shutdown s in
  GracefulStop s.

(** Modelled from the spec: [cmd.CatchSignals] is declared in package
    [cmd].  Section 6: the signal watcher "invokes a supplied shutdown
    callback exactly once when a termination signal arrives". *)
Definition CatchSignals (callback : server request → server request)
    (s : server request) : server request :=
  callback s.

End Shutdown.

(** ** Vocabulary for whole runs *)

Section Runs_vocabulary.

Context {IssuerNameID : Type} `{Countable IssuerNameID}.
Context {error SyslogConfig TLSConfig : Type}.

(** The calls of lines 111-131 when nothing fails, in program order. *)
Definition serve_calls (c : @config SyslogConfig TLSConfig)
    (bundle : list ASN1Cert) (bundles : gmap IssuerNameID (list ASN1Cert))
  : list (@event IssuerNameID _ _ error SyslogConfig) :=
  [ TLS_Load_call; Clock;
    publisher_New bundle bundles (UserAgent (Publisher c));
    NewServerMetrics; NewServer_call (GRPC (Service (Publisher c)));
    NewPublisherServerWrapper; RegisterPublisherServer;
    health_NewServer; RegisterHealthServer; go_CatchSignals; Serve_call ].



End Runs_vocabulary.

(** ** A concrete deployment

    Issuer identifiers are integers, errors are their messages.  Two
    intermediates, [r3.pem] and [r3-cross.pem], carry the same issuing
    key (identifier 1); [e1.pem] carries another (identifier 2). *)
Module Example.

Definition issuer_of (file : string) : option Z :=
  if decide (file = "r3.pem") then Some 1%Z
  else if decide (file = "r3-cross.pem") then Some 1%Z
  else if decide (file = "e1.pem") then Some 2%Z
  else None.

Definition der (file : string) : list Byte.byte := String.list_byte_of_string file.

Definition load_chain (files : list string) : result string (Z * list ASN1Cert) :=
  match files with
  | [] => Err "empty chain"
  | file :: rest =>
      match issuer_of file with
      | Some id => Ok (id, map (λ r, {| Data := der r |}) rest)
      | None => Err ("cannot load " +:+ file)
      end
  end.

(** The certificates of [bundle.pem]. *)
Definition bundle_certs : list x509_Certificate :=
  [ {| Raw := der "r3.pem" |}; {| Raw := der "root-x1.pem" |} ].

Definition load_cert_bundle (file : string) : result string (list x509_Certificate) :=
  if decide (file = "bundle.pem") then Ok bundle_certs
  else Err ("cannot load " +:+ file).

Definition closed : string := "use of closed network connection".

Definition cfg (ua : string) (chains : option (list (list string)))
    (legacy : string) : @config unit unit :=
  {| Publisher := {| Service := {| DebugAddr := ":8009";
                                   GRPC := {| Address := ":9091" |};
                                   TLS := tt |};
                     Features := ∅;
                     BlockProfileRate := 0;
                     UserAgent := ua;
                     Chains := chains |};
     Syslog := tt;
     Common := {| CT := {| IntermediateBundleFilename := legacy |} |} |}.

(** Everything but certificate loading succeeds; [Serve] returns [served]. *)
Definition world (c : @config unit unit) (served : option string)
  : @Collaborators Z string unit unit Z :=
  {| ReadConfigFile := λ _, Ok c;
     features_Set := λ _, None;
     LoadChain := load_chain;
     NameID := λ id, id;
     LoadCertBundle := load_cert_bundle;
     TLS_Load := λ _, None;
     NewServer := λ _, None;
     Serve := served;
     shutdown_induced := λ e, bool_decide (e = closed) |}.

Definition cmdline : flags :=
  {| grpcAddr := ""; debugAddr := ""; configFile := "publisher.json" |}.

Definition root_x1 : ASN1Cert := {| Data := der "root-x1.pem" |}.
Definition root_x2 : ASN1Cert := {| Data := der "root-x2.pem" |}.

(** Two chains under the same issuing key, then one under another. *)
Definition two_for_r3 : list (list string) :=
  [ ["r3.pem"; "root-x1.pem"];
    ["r3-cross.pem"; "root-x2.pem"];
    ["e1.pem"; "root-x2.pem"] ].

(** A second deployment that answers like the first for every file the
    chains of [two_for_r3] name, and differs elsewhere. *)
Definition load_chain' (files : list string) : result string (Z * list ASN1Cert) :=
  if decide (files = ["e1.pem"]) then Err "no such file"
  else load_chain files.

Definition world' (c : @config unit unit) (served : option string)
  : @Collaborators Z string unit unit Z :=
  {| ReadConfigFile := λ _, Ok c;
     features_Set := λ _, None;
     LoadChain := load_chain';
     NameID := λ id, id;
     LoadCertBundle := λ _, Err "not consulted";
     TLS_Load := λ _, Some "no key";
     NewServer := λ _, None;
     Serve := served;
     shutdown_induced := λ _, false |}.

(** Configurations: per-issuer chains; the legacy bundle only; no source
    at all; an empty chain list with and without a legacy bundle; a chain
    list whose second chain cannot be loaded. *)
Definition cfg_chains : @config unit unit := cfg "" (Some two_for_r3) "".
Definition cfg_legacy : @config unit unit := cfg "ua" None "bundle.pem".
Definition cfg_none : @config unit unit := cfg "ua" None "".
Definition cfg_empty_legacy : @config unit unit := cfg "ua" (Some []) "bundle.pem".
Definition cfg_empty : @config unit unit := cfg "ua" (Some []) "".
Definition cfg_broken : @config unit unit :=
  cfg "ua" (Some [ ["e1.pem"; "root-x2.pem"]; ["missing.pem"]; ["r3.pem"] ]) "".

(** The mapping the loop builds for [two_for_r3]. *)
Definition bundles_for_r3 : gmap Z (list ASN1Cert) :=
  <[2%Z := [root_x2]]> (<[1%Z := [root_x2]]> (<[1%Z := [root_x1]]> ∅)).

(** A command line that overrides both addresses. *)
Definition cmdline_override : flags :=
  {| grpcAddr := ":7000"; debugAddr := ":7001"; configFile := "publisher.json" |}.


(** A deployment in which no certificate file can be read: the loader
    answers every chain with the same error.  Two configurations for it,
    each with one chain. *)
Definition world_denied (c : @config unit unit)
  : @Collaborators Z string unit unit Z :=
  {| ReadConfigFile := λ _, Ok c;
     features_Set := λ _, None;
     LoadChain := λ _, Err "permission denied";
     NameID := λ id, id;
     LoadCertBundle := load_cert_bundle;
     TLS_Load := λ _, None;
     NewServer := λ _, None;
     Serve := None;
     shutdown_induced := λ e, bool_decide (e = closed) |}.

Definition cfg_r3_only : @config unit unit :=
  cfg "ua" (Some [ ["r3.pem"; "root-x1.pem"] ]) "".
Definition cfg_e1_only : @config unit unit :=
  cfg "ua" (Some [ ["e1.pem"; "root-x2.pem"] ]) "".

(** A server with two requests in flight and one answered. *)
Definition serving : server nat :=
  {| health := SERVING; accepting := true;
     in_flight := [1; 2]; completed := [0]; calls := [] |}.

End Example.

(** * Properties *)

(** ** The process monad *)

Lemma after_pair {E A} (t t' : list E) (r : exit_or A) :
  after t (t', r) = (t ++ t', r).
Proof. reflexivity. Qed.

Lemma after_mret {E A} (t : list E) (a : A) :
  after t (mret a) = (t, Ret a).
Proof. unfold after. cbn. by rewrite (right_id_L [] (++)). Qed.

Lemma after_nil {E A} (m : M E A) : after [] m = m.
Proof. by destruct m. Qed.

Lemma after_after {E A} (t t' : list E) (m : M E A) :
  after t (after t' m) = after (t ++ t') m.
Proof. unfold after. cbn [fst snd]. by rewrite (assoc_L (++)). Qed.

Lemma bind_Ret {E A B} (t : list E) (a : A) (k : A → M E B) :
  (t, Ret a) ≫= k = after t (k a).
Proof. reflexivity. Qed.

Lemma bind_Exit {E A B} (t : list E) (code : Z) (k : A → M E B) :
  (t, Exit code) ≫= k = (t, Exit code).
Proof. reflexivity. Qed.

Lemma after_bind {E A B} (t : list E) (m : M E A) (k : A → M E B) :
  after t m ≫= k = after t (m ≫= k).
Proof.
  destruct m as [t' [a|code]]; rewrite after_pair.
  - rewrite !bind_Ret. by rewrite after_after.
  - rewrite !bind_Exit. by rewrite after_pair.
Qed.

Lemma trace_after {E A} (t : list E) (m : M E A) :
  trace (after t m) = t ++ trace m.
Proof. reflexivity. Qed.

Lemma exit_status_after {E A} (t : list E) (m : M E A) :
  exit_status (after t m) = exit_status m.
Proof. reflexivity. Qed.

(** Runs the monadic plumbing of the goal as far as the values allow. *)
Ltac step :=
  do 2 cbn [mbind M_bind bind mret M_ret ret emit os_Exit
            check FailOnError fatal];
  rewrite ?after_pair, ?after_mret, ?after_nil.

(** ** Traces *)

Lemma trace_bind {E A B} (m : M E A) (k : A → M E B) (e : E) :
  e ∈ trace (m ≫= k) ↔
  e ∈ trace m ∨ ∃ a, m.2 = Ret a ∧ e ∈ trace (k a).
Proof.
  destruct m as [t [a|code]].
  - rewrite bind_Ret, trace_after. unfold trace. cbn [fst snd].
    rewrite elem_of_app. split.
    + intros [?|?]; [by left|right; eauto].
    + intros [?|(a' & [= <-] & ?)]; [by left|by right].
  - rewrite bind_Exit. unfold trace. cbn [fst snd]. split; [by left|].
    by intros [?|(a & [=] & _)].
Qed.

(** Case analysis on membership in a list written out in full. *)
Ltac split_elem_of H :=
  repeat (apply elem_of_cons in H as [H|H];
          [try discriminate H|]);
  try (apply elem_of_nil in H; contradiction).

Section Properties.

Context {IssuerNameID : Type} `{Countable IssuerNameID}.
Context {error SyslogConfig TLSConfig issuance_Certificate : Type}.

Local Abbreviation World :=
  (@Collaborators IssuerNameID error SyslogConfig TLSConfig issuance_Certificate).
Local Abbreviation Config := (@config SyslogConfig TLSConfig).
Local Abbreviation Event := (@event IssuerNameID _ _ error SyslogConfig).
Local Abbreviation Bundles := (gmap IssuerNameID (list ASN1Cert)).
Local Abbreviation Loaded := (issuance_Certificate * list ASN1Cert)%type.

Implicit Types (w : World) (c : Config) (f : flags) (bundles : Bundles).

(** ** Overrides leave the bundle sources alone *)

Lemma apply_overrides_Chains f c :
  Chains (Publisher (apply_overrides f c)) = Chains (Publisher c).
Proof. unfold apply_overrides. by repeat case_decide. Qed.

Lemma apply_overrides_Common f c :
  Common (apply_overrides f c) = Common c.
Proof. unfold apply_overrides. by repeat case_decide. Qed.

Lemma apply_overrides_Syslog f c :
  Syslog (apply_overrides f c) = Syslog c.
Proof. unfold apply_overrides. by repeat case_decide. Qed.

Lemma apply_overrides_UserAgent f c :
  UserAgent (Publisher (apply_overrides f c)) =
  if decide (UserAgent (Publisher c) = "") then default_UserAgent
  else UserAgent (Publisher c).
Proof.
  unfold apply_overrides.
  destruct (decide (grpcAddr f = "")), (decide (debugAddr f = ""));
    simpl; by case_decide.
Qed.

(** ** The loop over the chains *)

Lemma load_chains_ok w chains rs bundles :
  chains_load w chains rs →
  load_chains w chains bundles =
    (map LoadChain_call chains, Ret (foldl (store w) bundles rs)).
Proof.
  intros Hall. revert bundles.
  induction Hall as [|files r chains rs Hr _ IH]; intros bundles; [done|].
  cbn [load_chains]. rewrite Hr. destruct r as [issuer bundle]. step.
  rewrite IH. reflexivity.
Qed.

Lemma load_chains_fails w pre files post rs e bundles :
  chains_load w pre rs →
  LoadChain w files = Err e →
  load_chains w (pre ++ files :: post) bundles =
    (map LoadChain_call (pre ++ [files]) ++ [Failure "Failed to load chain" e],
     Exit 1).
Proof.
  intros Hall Hbad. revert bundles.
  induction Hall as [|fs r pre rs Hr _ IH]; intros bundles.
  - cbn [app load_chains]. rewrite Hbad. reflexivity.
  - cbn [app load_chains]. rewrite Hr. destruct r as [issuer bundle]. step.
    rewrite IH. reflexivity.
Qed.

Lemma load_chains_Ret w chains bundles t m :
  load_chains w chains bundles = (t, Ret m) →
  ∃ rs, chains_load w chains rs ∧
        t = map LoadChain_call chains ∧ m = foldl (store w) bundles rs.
Proof.
  revert bundles t.
  induction chains as [|files chains IH]; intros bundles t; cbn [load_chains].
  - step. intros [= <- <-]. exists []. by split; [constructor|].
  - destruct (LoadChain w files) as [[issuer bundle]|err] eqn:Hr; step; [|done].
    destruct (load_chains w chains (<[NameID w issuer := bundle]> bundles))
      as [t' [m'|code]] eqn:Hrest; rewrite after_pair; [|done].
    intros [= <- <-]. apply IH in Hrest as (rs & Hall & -> & ->).
    exists ((issuer, bundle) :: rs). by split; [constructor|].
Qed.

Lemma dom_store_all w rs bundles :
  dom (foldl (store w) bundles rs) = dom bundles ∪ list_to_set (issuer_ids w rs).
Proof.
  revert bundles. induction rs as [|r rs IH]; intros bundles; cbn.
  - by rewrite (right_id_L ∅ (∪)).
  - rewrite IH. unfold store. rewrite dom_insert_L.
    rewrite (comm_L (∪) {[NameID w r.1]} (dom bundles)).
    by rewrite (assoc_L (∪)).
Qed.

Lemma size_store_all w rs :
  size (foldl (store w) ∅ rs) = length (remove_dups (issuer_ids w rs)).
Proof.
  rewrite <- size_dom, dom_store_all, dom_empty_L, (left_id_L ∅ (∪)).
  rewrite <- (size_list_to_set (C := gset IssuerNameID) (remove_dups _))
    by apply NoDup_remove_dups.
  f_equal. apply set_eq. intros x.
  by rewrite !elem_of_list_to_set, elem_of_remove_dups.
Qed.

(** ** The server built around the bundles *)

Lemma serve_publisher_New w c bundle bundles b bs ua :
  publisher_New b bs ua ∈ trace (serve w c bundle bundles) →
  b = bundle ∧ bs = bundles ∧ ua = UserAgent (Publisher c).
Proof.
  unfold serve.
  destruct (TLS_Load w _), (NewServer w _), (FilterShutdownErrors w _);
    cbn; intros Hin; split_elem_of Hin; by simplify_eq.
Qed.

Lemma serve_reaches_publisher_New w c bundle bundles :
  TLS_Load w (TLS (Service (Publisher c))) = None →
  publisher_New bundle bundles (UserAgent (Publisher c))
    ∈ trace (serve w c bundle bundles).
Proof.
  intros Htls. unfold serve. rewrite Htls.
  destruct (NewServer w _), (FilterShutdownErrors w _);
    cbn; do 2 apply list_elem_of_further; apply list_elem_of_here.
Qed.

Lemma serve_events w c bundle bundles e :
  e ∈ trace (serve w c bundle bundles) →
  serve_event e = true ∨ ∃ msg err, e = Failure msg err.
Proof.
  unfold serve.
  destruct (TLS_Load w _), (NewServer w _), (FilterShutdownErrors w _);
    cbn; intros Hin; split_elem_of Hin; subst; eauto.
Qed.

Lemma serve_no_LoadCertBundle w c bundle bundles file :
  LoadCertBundle_call file ∉ trace (serve w c bundle bundles).
Proof. by intros [?|(? & ? & ?)]%serve_events. Qed.

Lemma serve_no_LoadChain w c bundle bundles files :
  LoadChain_call files ∉ trace (serve w c bundle bundles).
Proof. by intros [?|(? & ? & ?)]%serve_events. Qed.

(** ** Getting through the start of [main] *)

Lemma main_without_source w f c0 :
  reads_config w f c0 →
  Chains (Publisher c0) = None →
  IntermediateBundleFilename (CT (Common c0)) = "" →
  main w f =
    (startup_calls f c0 ++
       [logger_AuditErr "No CT submission bundle or chains provided"],
     Exit 1).
Proof.
  intros (Hfile & Hread & Hfeat) Hchains Hlegacy. unfold main.
  rewrite decide_False by done.
  rewrite Hread. step. rewrite Hfeat. step.
  rewrite apply_overrides_Common, apply_overrides_Chains, Hlegacy, Hchains.
  reflexivity.
Qed.

Lemma main_with_source w f c0 :
  reads_config w f c0 →
  is_Some (Chains (Publisher c0)) ∨
    IntermediateBundleFilename (CT (Common c0)) ≠ "" →
  main w f =
    (startup_calls f c0, Ret tt) ≫= λ _,
      resolve_bundles w (apply_overrides f c0) ≫= λ '(bundle, bundles),
        serve w (apply_overrides f c0) bundle bundles.
Proof.
  intros (Hfile & Hread & Hfeat) Hsrc. unfold main.
  rewrite decide_False by done.
  rewrite Hread. step. rewrite Hfeat. step.
  rewrite apply_overrides_Common, apply_overrides_Chains.
  unfold startup_calls.
  case_decide as Hlegacy.
  - destruct Hsrc as [[chains Hchains]|?]; [|done].
    rewrite Hchains. step. by rewrite !after_after.
  - step. by rewrite !after_after.
Qed.

(** ** What it takes to reach the server *)

Lemma load_chains_events w chains bundles e :
  e ∈ trace (load_chains w chains bundles) →
  (∃ files, e = LoadChain_call files) ∨ ∃ msg err, e = Failure msg err.
Proof.
  revert bundles.
  induction chains as [|files chains IH]; intros bundles; cbn [load_chains].
  - intros Hin. by apply elem_of_nil in Hin.
  - destruct (LoadChain w files) as [[issuer bundle]|err]; step.
    + rewrite trace_after. intros [->|Hin]%elem_of_cons.
      * left. by eexists.
      * by eapply IH.
    + intros Hin. unfold trace in Hin. cbn in Hin.
      split_elem_of Hin; subst; [left|right]; by repeat eexists.
Qed.

Lemma load_chains_no_serve_event w chains bundles e :
  serve_event e = true → e ∉ trace (load_chains w chains bundles).
Proof.
  intros He [(files & ->)|(msg & err & ->)]%load_chains_events; discriminate.
Qed.

Lemma resolve_bundles_no_serve_event w c e :
  serve_event e = true → e ∉ trace (resolve_bundles w c).
Proof.
  intros He. unfold resolve_bundles.
  destruct (Chains (Publisher c)) as [chains|].
  - rewrite trace_bind. intros [Hin|(bs & _ & Hin)].
    + by apply (load_chains_no_serve_event w chains ∅ e).
    + by apply elem_of_nil in Hin.
  - destruct (LoadCertBundle w _); step;
      intros Hin; unfold trace in Hin; cbn in Hin;
      split_elem_of Hin; by subst.
Qed.

Lemma main_serve_event w f e :
  serve_event e = true →
  e ∈ trace (main w f) →
  ∃ c0 t bundle bundles,
    reads_config w f c0 ∧
    (is_Some (Chains (Publisher c0)) ∨
       IntermediateBundleFilename (CT (Common c0)) ≠ "") ∧
    resolve_bundles w (apply_overrides f c0) = (t, Ret (bundle, bundles)) ∧
    main w f =
      after (startup_calls f c0 ++ t)
            (serve w (apply_overrides f c0) bundle bundles) ∧
    e ∈ trace (serve w (apply_overrides f c0) bundle bundles).
Proof.
  intros He Hin.
  destruct (decide (configFile f = "")) as [Hfile|Hfile].
  { unfold main in Hin. rewrite decide_True in Hin by done.
    cbn in Hin. split_elem_of Hin; by subst. }
  destruct (ReadConfigFile w (configFile f)) as [c0|err] eqn:Hread; cycle 1.
  { unfold main in Hin. rewrite decide_False, Hread in Hin by done.
    cbn in Hin. split_elem_of Hin; by subst. }
  destruct (features_Set w (Features (Publisher c0))) as [err|] eqn:Hfeat.
  { unfold main in Hin. rewrite decide_False, Hread in Hin by done.
    revert Hin. step. rewrite Hfeat. cbn. intros Hin.
    split_elem_of Hin; by subst. }
  assert (reads_config w f c0) as Hcfg by done.
  destruct (decide (is_Some (Chains (Publisher c0)) ∨
                    IntermediateBundleFilename (CT (Common c0)) ≠ ""))
    as [Hsrc|Hsrc]; cycle 1.
  { rewrite (main_without_source w f c0) in Hin; [| done | |].
    - cbn in Hin. split_elem_of Hin; by subst.
    - destruct (Chains (Publisher c0)); [|done].
      destruct Hsrc. left. by eexists.
    - destruct (decide (IntermediateBundleFilename (CT (Common c0)) = ""));
        [done|]. destruct Hsrc. by right. }
  rewrite (main_with_source w f c0) in * by done.
  rewrite bind_Ret, trace_after in Hin.
  apply elem_of_app in Hin as [Hin|Hin].
  { cbn in Hin. split_elem_of Hin; by subst. }
  apply trace_bind in Hin as [Hin|([bundle bundles] & Hres & Hin)].
  { by apply resolve_bundles_no_serve_event in Hin. }
  destruct (resolve_bundles w (apply_overrides f c0)) as [t r] eqn:Hr.
  cbn [snd] in Hres. subst r.
  exists c0, t, bundle, bundles. by rewrite !bind_Ret, after_after.
Qed.

Lemma apply_overrides_TLS f c :
  TLS (Service (Publisher (apply_overrides f c))) = TLS (Service (Publisher c)).
Proof. unfold apply_overrides. by repeat case_decide. Qed.

Lemma append_certs_flat (bundle : list ASN1Cert) certs :
  append_certs bundle certs = bundle ++ flat_bundle certs.
Proof.
  unfold append_certs, flat_bundle. revert bundle.
  induction certs as [|cert certs IH]; intros bundle; cbn.
  - by rewrite (right_id_L [] (++)).
  - by rewrite IH, <- (assoc_L (++)).
Qed.

(** ** Chain-bundle resolution *)

(** C5. When every one of the N configured chains loads, the loop leaves a
    mapping whose entries are exactly the distinct issuer identifiers
    seen: it has K entries, K the number of distinct identifiers, and an
    identifier has an entry if and only if some chain resolved to it. *)
Theorem one_entry_per_distinct_issuer w c chains rs :
  Chains (Publisher c) = Some chains →
  chains_load w chains rs →
  ∃ bundles,
    resolve_bundles w c = (map LoadChain_call chains, Ret ([], bundles)) ∧
    size bundles = length (remove_dups (issuer_ids w rs)) ∧
    (∀ id, is_Some (bundles !! id) ↔ id ∈ issuer_ids w rs) ∧
    length (issuer_ids w rs) = length chains.
Proof.
  intros Hchains Hload. exists (foldl (store w) ∅ rs).
  split; [|split; [|split]].
  - unfold resolve_bundles. rewrite Hchains.
    rewrite (load_chains_ok w chains rs) by done. by step.
  - apply size_store_all.
  - intros id. rewrite <- elem_of_dom, dom_store_all, dom_empty_L.
    rewrite (left_id_L ∅ (∪)). apply elem_of_list_to_set.
  - unfold issuer_ids. rewrite length_map.
    symmetry. by eapply Forall2_length.
Qed.

(** The entry stored for an issuer is the one of the last chain that
    resolved to it. *)
Lemma last_chain_for_issuer_is_stored w rs1 r rs2 bundles :
  NameID w r.1 ∉ issuer_ids w rs2 →
  foldl (store w) bundles (rs1 ++ r :: rs2) !! NameID w r.1 = Some r.2.
Proof.
  intros Hlater. rewrite foldl_app. cbn [foldl].
  generalize (foldl (store w) bundles rs1). clear rs1 bundles.
  induction rs2 as [|r' rs2 IH] using rev_ind; intros m.
  - cbn. unfold store. apply lookup_insert_eq.
  - rewrite foldl_snoc. unfold store at 1.
    unfold issuer_ids in *. rewrite map_app in Hlater. cbn in Hlater.
    apply not_elem_of_app in Hlater as [Hrs2 Hr'].
    apply not_elem_of_cons in Hr' as [Hne _].
    rewrite lookup_insert_ne by done. by apply IH.
Qed.

(** ** The two bundle sources *)

Lemma resolve_bundles_chains w c chains :
  Chains (Publisher c) = Some chains →
  resolve_bundles w c =
    load_chains w chains ∅ ≫= λ bundles, mret ([], bundles).
Proof. intros Hchains. unfold resolve_bundles. by rewrite Hchains. Qed.

Lemma resolve_bundles_legacy w c certs :
  Chains (Publisher c) = None →
  LoadCertBundle w (IntermediateBundleFilename (CT (Common c))) = Ok certs →
  resolve_bundles w c =
    ([LoadCertBundle_call (IntermediateBundleFilename (CT (Common c)))],
     Ret (flat_bundle certs, ∅)).
Proof.
  intros Hchains Hload. unfold resolve_bundles.
  rewrite Hchains, Hload. step. by rewrite append_certs_flat.
Qed.

(** C2, amended.  When the chain list is absent (the nil slice) and the
    legacy filename is non-empty and names a bundle that parses as
    [certs], startup takes the legacy path: it loads that file and, once
    the TLS configuration loads, builds the submission service around the
    raw blobs of [certs], in order, and an empty per-issuer mapping.  No
    chain is loaded. *)
Theorem absent_chains_use_legacy_bundle w f c0 certs :
  reads_config w f c0 →
  Chains (Publisher c0) = None →
  IntermediateBundleFilename (CT (Common c0)) ≠ "" →
  LoadCertBundle w (IntermediateBundleFilename (CT (Common c0))) = Ok certs →
  TLS_Load w (TLS (Service (Publisher c0))) = None →
  legacy_path w f (IntermediateBundleFilename (CT (Common c0))) certs ∧
  (∀ b bs ua, publisher_New b bs ua ∈ trace (main w f) →
              b = flat_bundle certs ∧ bs = ∅) ∧
  (∀ files, LoadChain_call files ∉ trace (main w f)).
Proof.
  intros Hcfg Hchains Hlegacy Hload Htls.
  pose proof (main_with_source w f c0 Hcfg (or_intror Hlegacy)) as Hmain.
  rewrite (resolve_bundles_legacy w _ certs) in Hmain
    by (by rewrite ?apply_overrides_Chains, ?apply_overrides_Common).
  rewrite apply_overrides_Common in Hmain. rewrite !bind_Ret in Hmain.
  rewrite after_after in Hmain.
  split; [split|split].
  - rewrite Hmain, trace_after, <- (assoc_L (++)).
    apply elem_of_app. right. apply elem_of_app. left. apply list_elem_of_here.
  - exists (UserAgent (Publisher (apply_overrides f c0))).
    rewrite Hmain, trace_after. apply elem_of_app. right.
    apply serve_reaches_publisher_New. by rewrite apply_overrides_TLS.
  - intros b bs ua Hin. rewrite Hmain, trace_after in Hin.
    apply elem_of_app in Hin as [Hin|Hin].
    + cbn in Hin. split_elem_of Hin.
    + by apply serve_publisher_New in Hin as (-> & -> & _).
  - intros files Hin. rewrite Hmain, trace_after in Hin.
    apply elem_of_app in Hin as [Hin|Hin].
    + cbn in Hin. split_elem_of Hin.
    + by apply serve_no_LoadChain in Hin.
Qed.

(** C3, amended.  When the chain list is absent (the nil slice) and the
    legacy filename is empty, [main] logs the audit error and exits with
    status 1.  The gRPC listener and the health endpoint have not been
    created by then.  The debug endpoint is another matter: before the
    test of line 86 [main] has read the configuration, set the feature
    flags and the block profile rate, and called [cmd.StatsAndLogging]
    with the debug address, so the failure does not come before every
    network resource. *)
Theorem no_bundle_source_fails_fast w f c0 :
  reads_config w f c0 →
  Chains (Publisher c0) = None →
  IntermediateBundleFilename (CT (Common c0)) = "" →
  main w f =
    (startup_calls f c0 ++
       [logger_AuditErr "No CT submission bundle or chains provided"],
     Exit 1) ∧
  fails_before_endpoints w f ∧
  StatsAndLogging (Syslog c0)
    (if decide (debugAddr f = "") then DebugAddr (Service (Publisher c0))
     else debugAddr f) ∈ trace (main w f) ∧
  ¬ fails_before_network_resources w f.
Proof.
  intros Hcfg Hchains Hlegacy.
  pose proof (main_without_source w f c0 Hcfg Hchains Hlegacy) as Hmain.
  assert (StatsAndLogging (Syslog c0)
            (if decide (debugAddr f = "")
             then DebugAddr (Service (Publisher c0))
             else debugAddr f) ∈ trace (main w f)) as Hstats.
  { rewrite Hmain. unfold trace, startup_calls. cbn [fst].
    rewrite apply_overrides_Syslog.
    assert (DebugAddr (Service (Publisher (apply_overrides f c0))) =
            if decide (debugAddr f = "")
            then DebugAddr (Service (Publisher c0))
            else debugAddr f) as ->.
    { unfold apply_overrides.
      destruct (decide (grpcAddr f = "")), (decide (debugAddr f = ""));
        simpl; by case_decide. }
    apply elem_of_app. left. do 3 right. left. }
  split; [done|]. split; [|split; [done|]].
  - unfold fails_before_endpoints. rewrite Hmain. split; [done|].
    intros e Hin. cbn in Hin. split_elem_of Hin; by subst.
  - intros [_ Hnone]. by apply Hnone in Hstats.
Qed.

(** C4.  When the chain list is present, whatever the legacy filename is,
    [main] never calls [core.LoadCertBundle], and the per-issuer mapping
    handed to the submission service is built from the chain list, next
    to an empty flat bundle: every configured chain has loaded, the
    mapping has an entry for exactly the issuers the loader returned, and
    the entry of an issuer is the bundle the loader returned for the last
    configured chain of that issuer. *)
Theorem chains_take_precedence w f c0 chains :
  ReadConfigFile w (configFile f) = Ok c0 →
  Chains (Publisher c0) = Some chains →
  (∀ file, LoadCertBundle_call file ∉ trace (main w f)) ∧
  (∀ b bs ua, publisher_New b bs ua ∈ trace (main w f) →
     b = [] ∧
     load_chains w chains ∅ = (map LoadChain_call chains, Ret bs) ∧
     ∃ rs,
       chains_load w chains rs ∧
       (∀ id, is_Some (bs !! id) ↔ id ∈ issuer_ids w rs) ∧
       (∀ rs1 r rs2,
          rs = rs1 ++ r :: rs2 →
          NameID w r.1 ∉ issuer_ids w rs2 →
          bs !! NameID w r.1 = Some r.2)) ∧
  (reads_config w f c0 →
   main w f =
     after (startup_calls f c0)
       (load_chains w chains ∅ ≫= λ bundles,
          serve w (apply_overrides f c0) [] bundles)).
Proof.
  intros Hread Hchains.
  assert (reads_config w f c0 →
          main w f =
            after (startup_calls f c0)
              (load_chains w chains ∅ ≫= λ bundles,
                 serve w (apply_overrides f c0) [] bundles)) as Hmain.
  { intros Hcfg.
    rewrite (main_with_source w f c0 Hcfg) by (left; by eexists).
    rewrite (resolve_bundles_chains w _ chains)
      by (by rewrite apply_overrides_Chains).
    rewrite bind_Ret. f_equal.
    destruct (load_chains w chains ∅) as [t [bs|code]]; [|done].
    by rewrite !bind_Ret, after_bind. }
  split; [|split; [|done]].
  - intros file Hin.
    destruct (decide (configFile f = "")) as [Hfile|Hfile].
    { unfold main in Hin. rewrite decide_True in Hin by done.
      cbn in Hin. split_elem_of Hin. }
    destruct (features_Set w (Features (Publisher c0))) as [err|] eqn:Hfeat.
    { unfold main in Hin. rewrite decide_False, Hread in Hin by done.
      revert Hin. step. rewrite Hfeat. cbn. intros Hin. split_elem_of Hin. }
    rewrite Hmain, trace_after in Hin by done.
    apply elem_of_app in Hin as [Hin|Hin]; [cbn in Hin; split_elem_of Hin|].
    apply trace_bind in Hin as [Hin|(bs & _ & Hin)].
    + by apply load_chains_events in Hin as [(? & ?)|(? & ? & ?)].
    + by apply serve_no_LoadCertBundle in Hin.
  - intros b bs ua Hin.
    apply main_serve_event in Hin as (c & t & b' & bs' & Hcfg & _ & Hres & _ & Hin);
      [|done].
    destruct Hcfg as (_ & Hread' & _). rewrite Hread in Hread'.
    injection Hread' as <-.
    apply serve_publisher_New in Hin as (-> & -> & _).
    rewrite (resolve_bundles_chains w _ chains) in Hres
      by (by rewrite apply_overrides_Chains).
    destruct (load_chains w chains ∅) as [t' [m|code]] eqn:Hloop; [|done].
    revert Hres. step. intros [= <- <- <-]. split; [done|].
    apply load_chains_Ret in Hloop as (rs & Hall & -> & ->).
    split; [done|]. exists rs. split; [done|]. split.
    + intros id. rewrite <- elem_of_dom, dom_store_all, dom_empty_L.
      rewrite (left_id_L ∅ (∪)). apply elem_of_list_to_set.
    + intros rs1 r rs2 -> Hlater.
      by apply last_chain_for_issuer_is_stored.
Qed.

Lemma first_failure w chains bad e :
  bad ∈ chains →
  LoadChain w bad = Err e →
  ∃ pre files post rs err,
    chains = pre ++ files :: post ∧
    chains_load w pre rs ∧
    LoadChain w files = Err err.
Proof.
  intros Hin Hbad.
  induction chains as [|fs chains IH]; [by apply elem_of_nil in Hin|].
  destruct (LoadChain w fs) as [r|err] eqn:Hfs.
  - apply elem_of_cons in Hin as [->|Hin]; [congruence|].
    destruct (IH Hin) as (pre & files & post & rs & err & -> & Hpre & Herr).
    exists (fs :: pre), files, post, (r :: rs), err.
    split; [done|]. split; [by constructor|done].
  - exists [], fs, chains, [], err. split; [done|]. split; [constructor|done].
Qed.

Lemma main_load_failure w f c0 pre files post rs err :
  reads_config w f c0 →
  Chains (Publisher c0) = Some (pre ++ files :: post) →
  chains_load w pre rs →
  LoadChain w files = Err err →
  main w f =
    (startup_calls f c0 ++ map LoadChain_call (pre ++ [files]) ++
       [Failure "Failed to load chain" err],
     Exit 1).
Proof.
  intros Hcfg Hchains Hpre Hbad.
  rewrite (main_with_source w f c0 Hcfg) by (left; by eexists).
  rewrite (resolve_bundles_chains w _ (pre ++ files :: post))
    by (by rewrite apply_overrides_Chains).
  by rewrite (load_chains_fails w pre files post rs err).
Qed.

(** C8, amended.  When some configured chain fails to load, [main] stops
    at the first such chain, in configuration order: it reports the
    loader's error for that chain under the fixed message "Failed to load
    chain" (the report names the chain only as far as the loader's error
    does) and exits with status 1.  The submission service is never
    constructed, so the entries stored for the chains before it are
    handed to nothing. *)
Theorem load_failure_is_fatal w f c0 chains bad e :
  reads_config w f c0 →
  Chains (Publisher c0) = Some chains →
  bad ∈ chains →
  LoadChain w bad = Err e →
  ∃ pre files post rs err,
    chains = pre ++ files :: post ∧
    chains_load w pre rs ∧
    LoadChain w files = Err err ∧
    main w f =
      (startup_calls f c0 ++ map LoadChain_call (pre ++ [files]) ++
         [Failure "Failed to load chain" err],
       Exit 1) ∧
    exit_status (main w f) = 1%Z ∧
    last (trace (main w f)) = Some (Failure "Failed to load chain" err) ∧
    (∀ b bs ua, publisher_New b bs ua ∉ trace (main w f)).
Proof.
  intros Hcfg Hchains Hin Hbad.
  destruct (first_failure w chains bad e Hin Hbad)
    as (pre & files & post & rs & err & -> & Hpre & Herr).
  exists pre, files, post, rs, err.
  pose proof (main_load_failure w f c0 pre files post rs err
                Hcfg Hchains Hpre Herr) as Hmain.
  do 4 (split; [done|]). rewrite Hmain. split; [done|]. split.
  - unfold trace. cbn [fst]. by rewrite !(assoc_L (++)), last_snoc.
  - intros b bs ua Hnew. unfold trace in Hnew. cbn [fst] in Hnew.
    apply elem_of_app in Hnew as [Hnew|Hnew]; [cbn in Hnew; split_elem_of Hnew|].
    apply elem_of_app in Hnew as [Hnew|Hnew]; [|split_elem_of Hnew].
    by apply list_elem_of_fmap in Hnew as (? & ? & _).
Qed.

Lemma load_chains_agree w1 w2 chains bundles :
  (∀ files, files ∈ chains → LoadChain w1 files = LoadChain w2 files) →
  (∀ issuer, NameID w1 issuer = NameID w2 issuer) →
  load_chains w1 chains bundles = load_chains w2 chains bundles.
Proof.
  intros Hload Hid. revert bundles.
  induction chains as [|files chains IH]; intros bundles; [done|].
  cbn [load_chains]. rewrite <- (Hload files) by apply list_elem_of_here.
  destruct (LoadChain w1 files) as [[issuer bundle]|err]; [|done]. step.
  rewrite Hid. f_equal. apply IH. intros fs Hfs. apply Hload.
  by apply list_elem_of_further.
Qed.

(** C9.  Resolution depends on nothing but the configuration and what the
    collaborators answer for the files it names: two runs over the same
    configuration, in which every configured chain loads alike, issuers
    are identified alike and the legacy bundle loads alike, make the same
    calls and yield the same flat bundle and the same mapping. *)
Theorem resolution_is_deterministic w1 w2 c :
  (∀ chains files, Chains (Publisher c) = Some chains → files ∈ chains →
                   LoadChain w1 files = LoadChain w2 files) →
  (∀ issuer, NameID w1 issuer = NameID w2 issuer) →
  (Chains (Publisher c) = None →
   LoadCertBundle w1 (IntermediateBundleFilename (CT (Common c))) =
   LoadCertBundle w2 (IntermediateBundleFilename (CT (Common c)))) →
  resolve_bundles w1 c = resolve_bundles w2 c ∧
  ∀ t1 t2 b1 b2 bs1 bs2,
    resolve_bundles w1 c = (t1, Ret (b1, bs1)) →
    resolve_bundles w2 c = (t2, Ret (b2, bs2)) →
    b1 = b2 ∧ ∀ id, bs1 !! id = bs2 !! id.
Proof.
  intros Hchains Hid Hlegacy.
  assert (resolve_bundles w1 c = resolve_bundles w2 c) as Heq.
  { unfold resolve_bundles.
    destruct (Chains (Publisher c)) as [chains|].
    - by rewrite (load_chains_agree w1 w2 chains) by eauto.
    - by rewrite Hlegacy. }
  split; [done|]. intros t1 t2 b1 b2 bs1 bs2 H1 H2.
  rewrite Heq, H2 in H1. by injection H1 as -> -> ->.
Qed.

(** C10.  The user agent handed to [publisher.New] is the configured one
    when that is non-empty, and "certificate-transparency-go/1.0" when it
    is empty or unset. *)
Theorem user_agent_defaulted w f c0 b bs ua :
  ReadConfigFile w (configFile f) = Ok c0 →
  publisher_New b bs ua ∈ trace (main w f) →
  ua = if decide (UserAgent (Publisher c0) = "")
       then "certificate-transparency-go/1.0"
       else UserAgent (Publisher c0).
Proof.
  intros Hread Hin.
  apply main_serve_event in Hin as (c & _ & b' & bs' & Hcfg & _ & _ & _ & Hin);
    [|done].
  destruct Hcfg as (_ & Hread' & _). rewrite Hread in Hread'.
  injection Hread' as <-.
  apply serve_publisher_New in Hin as (_ & _ & ->).
  apply apply_overrides_UserAgent.
Qed.

(** ** Serving and its outcome *)

Lemma serve_reaches_Serve w c bundle bundles :
  Serve_call ∈ trace (serve w c bundle bundles) →
  ∃ t,
    serve w c bundle bundles =
      after (t ++ [Serve_call])
        (FailOnError (FilterShutdownErrors w (Serve w))
                     "Publisher gRPC service failed").
Proof.
  unfold serve.
  destruct (TLS_Load w _); [cbn; intros Hin; split_elem_of Hin|].
  destruct (NewServer w _); [cbn; intros Hin; split_elem_of Hin|].
  intros _. step. rewrite !after_after. cbn [app].
  by eexists [_; _; _; _; _; _; _; _; _; _].
Qed.

(** C7.  Once [main] is serving, the error [Serve] returns decides the
    outcome.  A non-nil error that is not shutdown-induced is reported
    ("Publisher gRPC service failed") and the process exits with status 1.
    A shutdown-induced error is dropped: nothing is reported after the
    call to [Serve] and the process exits with status 0, as it does when
    [Serve] returns nil. *)
Theorem serve_error_surfaced_unless_shutdown w f :
  Serve_call ∈ trace (main w f) →
  (exit_status (main w f) ≠ 0%Z ↔
     ∃ err, Serve w = Some err ∧ shutdown_induced w err = false) ∧
  (∀ err, Serve w = Some err → shutdown_induced w err = false →
     exit_status (main w f) = 1%Z ∧
     last (trace (main w f)) =
       Some (Failure "Publisher gRPC service failed" err)) ∧
  (∀ err, Serve w = Some err → shutdown_induced w err = true →
     exit_status (main w f) = 0%Z ∧
     last (trace (main w f)) = Some Serve_call) ∧
  (Serve w = None →
     exit_status (main w f) = 0%Z ∧
     last (trace (main w f)) = Some Serve_call).
Proof.
  intros Hin.
  apply main_serve_event in Hin
    as (c0 & t & b & bs & _ & _ & _ & Hmain & Hin); [|done].
  apply serve_reaches_Serve in Hin as (t' & Hserve).
  rewrite Hserve, after_after, (assoc_L (++)) in Hmain.
  rewrite Hmain, exit_status_after, trace_after. clear Hmain Hserve.
  unfold FilterShutdownErrors.
  destruct (Serve w) as [err|]; [destruct (shutdown_induced w err) eqn:Hs|];
    cbn [FailOnError fatal mret M_ret ret trace exit_status fst snd];
    rewrite ?(right_id_L [] (++)), ?(assoc_L (++)), !last_snoc.
  - split; [|split; [|split]].
    + split; [done|]. intros (err' & [= <-] & ?). congruence.
    + intros err' [= <-] ?. congruence.
    + done.
    + done.
  - split; [|split; [|split]].
    + split; [eauto|done].
    + by intros err' [= <-] _.
    + intros err' [= <-] ?. congruence.
    + done.
  - split; [|split; [|split]].
    + split; [done|]. by intros (err' & [=] & _).
    + done.
    + done.
    + done.
Qed.

End Properties.

(** ** Shutdown order *)

Section ShutdownProperties.

Context {request : Type}.
Implicit Types (s : server request) (r : request).

(** C6.  When the termination signal arrives, the callback marks the
    health endpoint not-serving first, while the listener still is as it
    was, and only then starts the graceful stop.  The graceful stop lets
    every request accepted before the signal complete, and afterwards no
    arriving request is accepted. *)
Theorem health_stops_before_listener s r_old r_new :
  r_old ∈ in_flight s →
  let s1 := hs_Shutdown s in
  let s2 := CatchSignals shutdown_callback s in
  calls s2 = calls s ++ [hs_Shutdown_call; GracefulStop_call] ∧
  s2 = GracefulStop s1 ∧
  health s1 = NOT_SERVING ∧ accepting s1 = accepting s ∧
  in_flight s1 = in_flight s ∧
  r_old ∈ completed s2 ∧ in_flight s2 = [] ∧
  accepting s2 = false ∧ arrive r_new s2 = s2.
Proof.
  intros Hold. cbn.
  repeat split; try done.
  - by rewrite <- (assoc_L (++)).
  - apply elem_of_app. by right.
Qed.

End ShutdownProperties.

(** * Concrete runs *)

Section Runs.

Import Example.

(** C1 (the code departs from the claim).  With two chains for the issuer
    identified by 1, the first carrying [root_x1] and the second
    [root_x2], the mapping handed to [publisher.New] holds the bundle of
    the second chain for that issuer, not the one of the first: line 99
    overwrites the entry the first chain left. *)
Theorem duplicate_issuer_keeps_last_chain :
  Chains (Publisher cfg_chains) =
    Some [ ["r3.pem"; "root-x1.pem"]; ["r3-cross.pem"; "root-x2.pem"];
           ["e1.pem"; "root-x2.pem"] ] ∧
  LoadChain (world cfg_chains None) ["r3.pem"; "root-x1.pem"]
    = Ok (1%Z, [root_x1]) ∧
  LoadChain (world cfg_chains None) ["r3-cross.pem"; "root-x2.pem"]
    = Ok (1%Z, [root_x2]) ∧
  publisher_New [] bundles_for_r3 default_UserAgent
    ∈ trace (main (world cfg_chains None) cmdline) ∧
  bundles_for_r3 !! 1%Z = Some [root_x2] ∧
  bundles_for_r3 !! 1%Z ≠ Some [root_x1].
Proof.
  split; [reflexivity|]. split; [reflexivity|]. split; [reflexivity|].
  split; [|split].
  - apply list_elem_of_lookup_2 with 10. vm_compute. reflexivity.
  - vm_compute. reflexivity.
  - vm_compute. discriminate.
Qed.

(** C2 fails for a chain list that is present but empty: with the JSON
    value [] for the chains and a legacy filename naming a bundle that
    parses, [main] never loads that bundle and builds the submission
    service around an empty flat bundle. *)
Lemma empty_chain_list_skips_legacy_bundle :
  Chains (Publisher cfg_empty_legacy) = Some [] ∧
  LoadCertBundle (world cfg_empty_legacy None) "bundle.pem" = Ok bundle_certs ∧
  publisher_New [] ∅ "ua" ∈ trace (main (world cfg_empty_legacy None) cmdline) ∧
  ¬ legacy_path (world cfg_empty_legacy None) cmdline "bundle.pem" bundle_certs.
Proof.
  split; [reflexivity|]. split; [reflexivity|]. split.
  - apply list_elem_of_lookup_2 with 7. vm_compute. reflexivity.
  - intros [Hcall _]. vm_compute in Hcall. split_elem_of Hcall.
Qed.

(** C3 fails in two ways.  With no chain list and no legacy filename the
    process does exit with status 1, but only after [cmd.StatsAndLogging]
    has been handed the debug address (line 81 comes before the test of
    line 86), so not before every network resource.  And with a chain
    list that is present but empty (the JSON value []) and no legacy
    filename, the test of line 86 passes: the listener and the health
    endpoint are created and the process ends with status 0 once [Serve]
    returns. *)
Lemma source_test_is_late_and_nil_only :
  (Chains (Publisher cfg_none) = None ∧
   IntermediateBundleFilename (CT (Common cfg_none)) = "" ∧
   exit_status (main (world cfg_none None) cmdline) = 1%Z ∧
   StatsAndLogging tt ":8009" ∈ trace (main (world cfg_none None) cmdline) ∧
   ¬ fails_before_network_resources (world cfg_none None) cmdline) ∧
  (Chains (Publisher cfg_empty) = Some [] ∧
   IntermediateBundleFilename (CT (Common cfg_empty)) = "" ∧
   health_NewServer ∈ trace (main (world cfg_empty None) cmdline) ∧
   exit_status (main (world cfg_empty None) cmdline) = 0%Z ∧
   ¬ fails_before_endpoints (world cfg_empty None) cmdline ∧
   ¬ fails_before_network_resources (world cfg_empty None) cmdline).
Proof.
  split.
  - assert (StatsAndLogging tt ":8009"
              ∈ trace (main (world cfg_none None) cmdline)) as Hstats.
    { apply list_elem_of_lookup_2 with 3. vm_compute. reflexivity. }
    split; [reflexivity|]. split; [reflexivity|].
    split; [vm_compute; reflexivity|]. split; [exact Hstats|].
    intros [_ Hnone]. apply Hnone in Hstats. discriminate Hstats.
  - split; [reflexivity|]. split; [reflexivity|]. split; [|split; [|split]].
    + apply list_elem_of_lookup_2 with 12. vm_compute. reflexivity.
    + vm_compute. reflexivity.
    + intros [Hexit _]. apply Hexit. vm_compute. reflexivity.
    + intros [Hexit _]. apply Hexit. vm_compute. reflexivity.
Qed.

(** C8 fails on "identifying the failing chain".  Line 96 hands
    [cmd.FailOnError] the loader's error and the fixed message "Failed to
    load chain", neither the file list nor its position.  When the loader
    answers two different chains with the same error, the two runs end
    with the same report, although they failed on different chains. *)
Lemma load_failure_report_does_not_name_the_chain :
  ["r3.pem"; "root-x1.pem"] ≠ ["e1.pem"; "root-x2.pem"] ∧
  LoadChain_call ["r3.pem"; "root-x1.pem"]
    ∈ trace (main (world_denied cfg_r3_only) cmdline) ∧
  LoadChain_call ["e1.pem"; "root-x2.pem"]
    ∈ trace (main (world_denied cfg_e1_only) cmdline) ∧
  last (trace (main (world_denied cfg_r3_only) cmdline)) =
    Some (Failure "Failed to load chain" "permission denied") ∧
  last (trace (main (world_denied cfg_e1_only) cmdline)) =
    Some (Failure "Failed to load chain" "permission denied").
Proof.
  split; [discriminate|]. split; [|split; [|split]].
  - apply list_elem_of_lookup_2 with 5. vm_compute. reflexivity.
  - apply list_elem_of_lookup_2 with 5. vm_compute. reflexivity.
  - vm_compute. reflexivity.
  - vm_compute. reflexivity.
Qed.

(** The example deployment reads its configuration. *)
Lemma example_reads_config c served :
  reads_config (world c served) cmdline c.
Proof. by repeat split. Defined.

Lemma absent_chains_use_legacy_bundle_witness :
  Chains (Publisher cfg_legacy) = None ∧
  legacy_path (world cfg_legacy None) cmdline "bundle.pem" bundle_certs.
Proof.
  split; [reflexivity|].
  apply (absent_chains_use_legacy_bundle
           (world cfg_legacy None) cmdline cfg_legacy bundle_certs).
  - apply example_reads_config.
  - reflexivity.
  - discriminate.
  - reflexivity.
  - reflexivity.
Defined.

Lemma no_bundle_source_fails_fast_witness :
  Chains (Publisher cfg_none) = None ∧
  exit_status (main (world cfg_none None) cmdline) = 1%Z ∧
  fails_before_endpoints (world cfg_none None) cmdline ∧
  StatsAndLogging tt ":8009" ∈ trace (main (world cfg_none None) cmdline).
Proof.
  split; [reflexivity|].
  destruct (no_bundle_source_fails_fast (world cfg_none None) cmdline cfg_none)
    as (Hmain & Hfails & Hstats & _).
  - apply example_reads_config.
  - reflexivity.
  - reflexivity.
  - split; [|split; [exact Hfails|exact Hstats]]. rewrite Hmain. reflexivity.
Defined.

Lemma chains_take_precedence_witness :
  IntermediateBundleFilename (CT (Common (cfg "ua" (Some two_for_r3) "bundle.pem")))
    = "bundle.pem" ∧
  (∀ file,
     LoadCertBundle_call file ∉
       trace (main (world (cfg "ua" (Some two_for_r3) "bundle.pem") None) cmdline)) ∧
  publisher_New [] bundles_for_r3 "ua"
    ∈ trace (main (world (cfg "ua" (Some two_for_r3) "bundle.pem") None) cmdline) ∧
  ∃ rs,
    chains_load (world (cfg "ua" (Some two_for_r3) "bundle.pem") None)
      two_for_r3 rs ∧
    (∀ id, is_Some (bundles_for_r3 !! id) ↔
           id ∈ issuer_ids (world (cfg "ua" (Some two_for_r3) "bundle.pem") None) rs).
Proof.
  split; [reflexivity|].
  assert (publisher_New [] bundles_for_r3 "ua"
            ∈ trace (main (world (cfg "ua" (Some two_for_r3) "bundle.pem") None)
                          cmdline)) as Hin.
  { apply list_elem_of_lookup_2 with 10. vm_compute. reflexivity. }
  destruct (chains_take_precedence
              (world (cfg "ua" (Some two_for_r3) "bundle.pem") None) cmdline
              (cfg "ua" (Some two_for_r3) "bundle.pem") two_for_r3)
    as (Hlegacy & Hnew & _).
  - reflexivity.
  - reflexivity.
  - split; [exact Hlegacy|]. split; [exact Hin|].
    destruct (Hnew [] bundles_for_r3 "ua" Hin) as (_ & _ & rs & Hall & Hdom & _).
    exists rs. split; [exact Hall|exact Hdom].
Defined.

Lemma one_entry_per_distinct_issuer_witness :
  ∃ bundles,
    resolve_bundles (world cfg_chains None) cfg_chains =
      (map LoadChain_call two_for_r3, Ret ([], bundles)) ∧
    size bundles = 2.
Proof.
  destruct (one_entry_per_distinct_issuer (world cfg_chains None) cfg_chains
              two_for_r3
              [(1%Z, [root_x1]); (1%Z, [root_x2]); (2%Z, [root_x2])])
    as (bundles & Hres & Hsize & _).
  - reflexivity.
  - repeat constructor.
  - exists bundles. split; [exact Hres|]. rewrite Hsize. reflexivity.
Defined.

Lemma health_stops_before_listener_witness :
  calls (CatchSignals shutdown_callback serving) =
    [hs_Shutdown_call; GracefulStop_call] ∧
  1 ∈ completed (CatchSignals shutdown_callback serving) ∧
  arrive 7 (CatchSignals shutdown_callback serving) =
    CatchSignals shutdown_callback serving.
Proof.
  destruct (health_stops_before_listener serving 1 7)
    as (Hcalls & _ & _ & _ & _ & Hdone & _ & _ & Hnew).
  - apply list_elem_of_here.
  - split; [exact Hcalls|]. split; [exact Hdone|exact Hnew].
Defined.

Lemma serve_error_surfaced_unless_shutdown_witness :
  exit_status (main (world cfg_legacy (Some "boom")) cmdline) = 1%Z ∧
  exit_status (main (world cfg_legacy (Some closed)) cmdline) = 0%Z.
Proof.
  split.
  - destruct (serve_error_surfaced_unless_shutdown
                (world cfg_legacy (Some "boom")) cmdline)
      as (_ & Hbad & _).
    + apply list_elem_of_lookup_2 with 16. vm_compute. reflexivity.
    + by apply (Hbad "boom").
  - destruct (serve_error_surfaced_unless_shutdown
                (world cfg_legacy (Some closed)) cmdline)
      as (_ & _ & Hgood & _).
    + apply list_elem_of_lookup_2 with 16. vm_compute. reflexivity.
    + by apply (Hgood closed).
Defined.

Lemma load_failure_is_fatal_witness :
  ["missing.pem"] ∈ [ ["e1.pem"; "root-x2.pem"]; ["missing.pem"]; ["r3.pem"] ] ∧
  exit_status (main (world cfg_broken None) cmdline) = 1%Z ∧
  ∀ b bs ua,
    publisher_New b bs ua ∉ trace (main (world cfg_broken None) cmdline).
Proof.
  assert (["missing.pem"] ∈
            [ ["e1.pem"; "root-x2.pem"]; ["missing.pem"]; ["r3.pem"] ]) as Hin.
  { apply list_elem_of_further, list_elem_of_here. }
  split; [exact Hin|].
  destruct (load_failure_is_fatal (world cfg_broken None) cmdline cfg_broken
              [ ["e1.pem"; "root-x2.pem"]; ["missing.pem"]; ["r3.pem"] ]
              ["missing.pem"] "cannot load missing.pem")
    as (pre & files & post & rs & err & _ & _ & _ & _ & Hexit & _ & Hnew).
  - apply example_reads_config.
  - reflexivity.
  - exact Hin.
  - reflexivity.
  - split; [exact Hexit|exact Hnew].
Defined.

Lemma resolution_is_deterministic_witness :
  LoadChain (world cfg_chains None) ["e1.pem"] ≠
    LoadChain (world' cfg_chains None) ["e1.pem"] ∧
  resolve_bundles (world cfg_chains None) cfg_chains =
    resolve_bundles (world' cfg_chains None) cfg_chains.
Proof.
  split; [discriminate|].
  apply (resolution_is_deterministic
           (world cfg_chains None) (world' cfg_chains None) cfg_chains).
  - intros chains files [= <-] Hin.
    repeat (apply elem_of_cons in Hin as [->|Hin]; [reflexivity|]).
    by apply elem_of_nil in Hin.
  - reflexivity.
  - discriminate.
Defined.

Lemma user_agent_defaulted_witness :
  UserAgent (Publisher cfg_chains) = "" ∧
  publisher_New [] bundles_for_r3 "certificate-transparency-go/1.0"
    ∈ trace (main (world cfg_chains None) cmdline) ∧
  "certificate-transparency-go/1.0" =
    (if decide (UserAgent (Publisher cfg_chains) = "")
     then "certificate-transparency-go/1.0"
     else UserAgent (Publisher cfg_chains)).
Proof.
  split; [reflexivity|].
  assert (publisher_New [] bundles_for_r3 "certificate-transparency-go/1.0"
            ∈ trace (main (world cfg_chains None) cmdline)) as Hin.
  { apply list_elem_of_lookup_2 with 10. vm_compute. reflexivity. }
  split; [exact Hin|].
  apply (user_agent_defaulted (world cfg_chains None) cmdline cfg_chains
           [] bundles_for_r3 "certificate-transparency-go/1.0").
  - reflexivity.
  - exact Hin.
Defined.

End Runs.

(** * The rest of [main] *)

Section Coverage.

Context {IssuerNameID : Type} `{Countable IssuerNameID}.
Context {error SyslogConfig TLSConfig issuance_Certificate : Type}.

Local Abbreviation World :=
  (@Collaborators IssuerNameID error SyslogConfig TLSConfig issuance_Certificate).
Local Abbreviation Config := (@config SyslogConfig TLSConfig).
Local Abbreviation Event := (@event IssuerNameID _ _ error SyslogConfig).
Local Abbreviation Bundles := (gmap IssuerNameID (list ASN1Cert)).

Implicit Types (w : World) (c : Config) (f : flags) (bundles : Bundles).

(** ** Every way a run can go *)

Lemma chains_load_or_fail w chains :
  (∃ rs, chains_load w chains rs) ∨
  (∃ pre files post rs err,
     chains = pre ++ files :: post ∧
     chains_load w pre rs ∧
     LoadChain w files = Err err).
Proof.
  induction chains as [|fs chains IH].
  - left. exists []. constructor.
  - destruct (LoadChain w fs) as [r|err] eqn:Hfs.
    + destruct IH as [(rs & Hall)|(pre & files & post & rs & err & -> & Hpre & Herr)].
      * left. exists (r :: rs). by constructor.
      * right. exists (fs :: pre), files, post, (r :: rs), err.
        split; [done|]. split; [by constructor|done].
    + right. exists [], fs, chains, [], err.
      split; [done|]. split; [constructor|done].
Qed.

Lemma resolve_cases w c :
  (∃ chains rs,
     Chains (Publisher c) = Some chains ∧ chains_load w chains rs ∧
     resolve_bundles w c =
       (map LoadChain_call chains, Ret ([], foldl (store w) ∅ rs))) ∨
  (∃ pre files post rs err,
     Chains (Publisher c) = Some (pre ++ files :: post) ∧
     chains_load w pre rs ∧ LoadChain w files = Err err ∧
     resolve_bundles w c =
       (map LoadChain_call (pre ++ [files]) ++
          [Failure "Failed to load chain" err], Exit 1)) ∨
  (∃ certs,
     Chains (Publisher c) = None ∧
     LoadCertBundle w (IntermediateBundleFilename (CT (Common c))) = Ok certs ∧
     resolve_bundles w c =
       ([LoadCertBundle_call (IntermediateBundleFilename (CT (Common c)))],
        Ret (flat_bundle certs, ∅))) ∨
  (∃ err,
     Chains (Publisher c) = None ∧
     LoadCertBundle w (IntermediateBundleFilename (CT (Common c))) = Err err ∧
     resolve_bundles w c =
       ([LoadCertBundle_call (IntermediateBundleFilename (CT (Common c)));
         Failure "Failed to load CT submission bundle" err], Exit 1)).
Proof.
  destruct (Chains (Publisher c)) as [chains|] eqn:Hchains.
  - destruct (chains_load_or_fail w chains)
      as [(rs & Hall)|(pre & files & post & rs & err & -> & Hpre & Herr)].
    + left. exists chains, rs. split; [done|]. split; [done|].
      rewrite (resolve_bundles_chains w c chains) by done.
      rewrite (load_chains_ok w chains rs) by done. by step.
    + right. left. exists pre, files, post, rs, err.
      split; [done|]. split; [done|]. split; [done|].
      rewrite (resolve_bundles_chains w c (pre ++ files :: post)) by done.
      by rewrite (load_chains_fails w pre files post rs err).
  - destruct (LoadCertBundle w (IntermediateBundleFilename (CT (Common c))))
      as [certs|err] eqn:Hload.
    + right. right. left. exists certs. split; [done|]. split; [done|].
      by apply resolve_bundles_legacy.
    + right. right. right. exists err. split; [done|]. split; [done|].
      unfold resolve_bundles. by rewrite Hchains, Hload.
Qed.

Lemma serve_cases w c bundle bundles :
  (∃ err,
     TLS_Load w (TLS (Service (Publisher c))) = Some err ∧
     serve w c bundle bundles =
       ([TLS_Load_call; Failure "TLS config" err], Exit 1)) ∨
  (∃ err,
     TLS_Load w (TLS (Service (Publisher c))) = None ∧
     NewServer w (GRPC (Service (Publisher c))) = Some err ∧
     serve w c bundle bundles =
       (take 5 (serve_calls c bundle bundles) ++
          [Failure "Unable to setup Publisher gRPC server" err], Exit 1)) ∨
  (∃ err,
     TLS_Load w (TLS (Service (Publisher c))) = None ∧
     NewServer w (GRPC (Service (Publisher c))) = None ∧
     Serve w = Some err ∧ shutdown_induced w err = false ∧
     serve w c bundle bundles =
       (serve_calls c bundle bundles ++
          [Failure "Publisher gRPC service failed" err], Exit 1)) ∨
  (TLS_Load w (TLS (Service (Publisher c))) = None ∧
   NewServer w (GRPC (Service (Publisher c))) = None ∧
   FilterShutdownErrors w (Serve w) = None ∧
   serve w c bundle bundles = (serve_calls c bundle bundles, Ret tt)).
Proof.
  unfold serve, FilterShutdownErrors.
  destruct (TLS_Load w _) as [err|] eqn:Htls.
  { left. by exists err. }
  destruct (NewServer w _) as [err|] eqn:Hsrv.
  { right. left. by exists err. }
  destruct (Serve w) as [err|] eqn:Hserve.
  - destruct (shutdown_induced w err) eqn:Hs.
    + by right; right; right.
    + right. right. left. by exists err.
  - by right; right; right.
Qed.

Lemma main_cases w f :
  (configFile f = "" ∧ main w f = ([flag_Usage], Exit 1)) ∨
  (∃ err,
     configFile f ≠ "" ∧ ReadConfigFile w (configFile f) = Err err ∧
     main w f =
       ([ReadConfigFile_call (configFile f);
         Failure "Reading JSON config file into config structure" err],
        Exit 1)) ∨
  (∃ c0 err,
     configFile f ≠ "" ∧ ReadConfigFile w (configFile f) = Ok c0 ∧
     features_Set w (Features (Publisher c0)) = Some err ∧
     main w f =
       ([ReadConfigFile_call (configFile f);
         features_Set_call (Features (Publisher c0));
         Failure "Failed to set feature flags" err],
        Exit 1)) ∨
  (∃ c0,
     reads_config w f c0 ∧ Chains (Publisher c0) = None ∧
     IntermediateBundleFilename (CT (Common c0)) = "" ∧
     main w f =
       (startup_calls f c0 ++
          [logger_AuditErr "No CT submission bundle or chains provided"],
        Exit 1)) ∨
  (∃ c0,
     reads_config w f c0 ∧
     (is_Some (Chains (Publisher c0)) ∨
        IntermediateBundleFilename (CT (Common c0)) ≠ "") ∧
     main w f =
       after (startup_calls f c0)
         (resolve_bundles w (apply_overrides f c0) ≫= λ '(bundle, bundles),
            serve w (apply_overrides f c0) bundle bundles)).
Proof.
  destruct (decide (configFile f = "")) as [Hfile|Hfile].
  { left. split; [done|]. unfold main. by rewrite decide_True by done. }
  destruct (ReadConfigFile w (configFile f)) as [c0|err] eqn:Hread; cycle 1.
  { right. left. exists err. split; [done|]. split; [done|].
    unfold main. by rewrite decide_False, Hread by done. }
  destruct (features_Set w (Features (Publisher c0))) as [err|] eqn:Hfeat.
  { right. right. left. exists c0, err. do 3 (split; [done|]).
    unfold main. rewrite decide_False, Hread by done. step.
    by rewrite Hfeat. }
  assert (reads_config w f c0) as Hcfg by done.
  destruct (Chains (Publisher c0)) as [chains|] eqn:Hchains.
  { do 4 right. exists c0. split; [done|]. split; [left; by eexists|].
    rewrite (main_with_source w f c0 Hcfg) by (left; by eexists).
    by rewrite bind_Ret. }
  destruct (decide (IntermediateBundleFilename (CT (Common c0)) = ""))
    as [Hlegacy|Hlegacy].
  - do 3 right. left. exists c0. do 3 (split; [done|]).
    by apply main_without_source.
  - do 4 right. exists c0. split; [done|]. split; [by right|].
    rewrite (main_with_source w f c0 Hcfg) by (by right).
    by rewrite bind_Ret.
Qed.

(** Splits a goal about [main w f] into one goal per way the run can go;
    each has [Hmain], the trace and result of the run written out. *)
Ltac all_runs w f :=
  destruct (main_cases w f)
    as [(Hfile & Hmain)
       |[(err & Hfile & Hread & Hmain)
        |[(c0 & err & Hfile & Hread & Hfeat & Hmain)
         |[(c0 & Hcfg & Hchains & Hlegacy & Hmain)
          |(c0 & Hcfg & Hsrc & Hmain)]]]];
  [ | | | |
    destruct (resolve_cases w (apply_overrides f c0))
      as [(chains & rs & Hchains & Hload & Hres)
         |[(pre & files & post & rs & err & Hchains & Hpre & Herr & Hres)
          |[(certs & Hchains & Hload & Hres)
           |(err & Hchains & Herr & Hres)]]];
    rewrite Hres in Hmain;
    [ rewrite bind_Ret in Hmain;
      destruct (serve_cases w (apply_overrides f c0) [] (foldl (store w) ∅ rs))
        as [(err & Htls & Hserve)
           |[(err & Htls & Hsrv & Hserve)
            |[(err & Htls & Hsrv & Hret & Hind & Hserve)
             |(Htls & Hsrv & Hret & Hserve)]]];
      rewrite Hserve in Hmain; rewrite !after_pair in Hmain
    | rewrite bind_Exit, after_pair in Hmain
    | rewrite bind_Ret in Hmain;
      destruct (serve_cases w (apply_overrides f c0) (flat_bundle certs) ∅)
        as [(err & Htls & Hserve)
           |[(err & Htls & Hsrv & Hserve)
            |[(err & Htls & Hsrv & Hret & Hind & Hserve)
             |(Htls & Hsrv & Hret & Hserve)]]];
      rewrite Hserve in Hmain; rewrite !after_pair in Hmain
    | rewrite bind_Exit, after_pair in Hmain ] ].

(** Case analysis on membership in a trace written out as above. *)
Ltac in_run Hin :=
  unfold trace, startup_calls, serve_calls in Hin; cbn [fst take] in Hin;
  repeat (apply elem_of_app in Hin as [Hin|Hin]);
  try (apply list_elem_of_fmap in Hin as (? & Hin & _));
  split_elem_of Hin; try discriminate Hin.

Lemma main_exit_zero w f :
  exit_status (main w f) = 0%Z ↔
  Serve_call ∈ trace (main w f) ∧ FilterShutdownErrors w (Serve w) = None.
Proof.
  all_runs w f; rewrite Hmain; (split; [intros Hexit|intros [Hin Hnone]]);
    try discriminate Hexit; try (exfalso; by in_run Hin).
  - exfalso. unfold FilterShutdownErrors in Hnone.
    by rewrite Hret, Hind in Hnone.
  - split; [|done]. unfold trace, serve_calls. cbn [fst].
    rewrite !elem_of_app. right. right. by do 10 right; left.
  - done.
  - exfalso. unfold FilterShutdownErrors in Hnone.
    by rewrite Hret, Hind in Hnone.
  - split; [|done]. unfold trace, serve_calls. cbn [fst].
    rewrite !elem_of_app. right. right. by do 10 right; left.
  - done.
Qed.

(** X1.  The process ends with status 0 in two cases only: [flag.Parse]
    itself ended it with status 0 after printing the usage, or the flags
    were parsed, [main] got as far as calling [Serve], and [Serve]
    returned nil or an error that the shutdown filter drops. *)
Theorem exit_zero_only_after_serving w p :
  exit_status (program w p) = 0%Z ↔
  p = Usage_exit 0 ∨
  ∃ f, p = Parsed f ∧
       Serve_call ∈ trace (main w f) ∧
       FilterShutdownErrors w (Serve w) = None.
Proof.
  destruct p as [f|code]; cbn [program].
  - rewrite main_exit_zero. split.
    + intros Hserved. right. by exists f.
    + by intros [[=]|(f' & [= <-] & Hserved)].
  - change (exit_status (emit flag_Usage ≫= λ _, os_Exit code))
      with code.
    split.
    + intros ->. by left.
    + by intros [[= ->]|(f & [=] & _)].
Qed.


Lemma apply_overrides_DebugAddr f c :
  DebugAddr (Service (Publisher (apply_overrides f c))) =
  if decide (debugAddr f = "") then DebugAddr (Service (Publisher c))
  else debugAddr f.
Proof.
  unfold apply_overrides.
  destruct (decide (grpcAddr f = "")), (decide (debugAddr f = ""));
    simpl; by case_decide.
Qed.

Lemma apply_overrides_GRPC f c :
  Address (GRPC (Service (Publisher (apply_overrides f c)))) =
  if decide (grpcAddr f = "") then Address (GRPC (Service (Publisher c)))
  else grpcAddr f.
Proof.
  unfold apply_overrides.
  destruct (decide (grpcAddr f = "")), (decide (debugAddr f = ""));
    simpl; by case_decide.
Qed.

(** X4.  The address the gRPC server is created with is the [-addr] flag
    when that is given, and the configured address otherwise. *)
Theorem grpc_address_override w f c0 g :
  ReadConfigFile w (configFile f) = Ok c0 →
  NewServer_call g ∈ trace (main w f) →
  Address g = if decide (grpcAddr f = "")
              then Address (GRPC (Service (Publisher c0)))
              else grpcAddr f.
Proof.
  intros Hread Hin.
  apply main_serve_event in Hin as (c & _ & b & bs & Hcfg & _ & _ & _ & Hin);
    [|done].
  destruct Hcfg as (_ & Hread' & _). rewrite Hread in Hread'.
  injection Hread' as <-.
  destruct (serve_cases w (apply_overrides f c0) b bs)
    as [(err & _ & Hserve)
       |[(err & _ & _ & Hserve)
        |[(err & _ & _ & _ & _ & Hserve)|(_ & _ & _ & Hserve)]]];
    rewrite Hserve in Hin; in_run Hin;
    injection Hin as ->; apply apply_overrides_GRPC.
Qed.

(** X5.  Statistics and logging are only set up once the configuration is
    read and its feature flags accepted; they get the syslog settings of
    the file, and the [-debug-addr] flag as debug address when that is
    given, the configured debug address otherwise. *)
Theorem debug_address_override w f syslog addr :
  StatsAndLogging syslog addr ∈ trace (main w f) →
  ∃ c0,
    reads_config w f c0 ∧
    syslog = Syslog c0 ∧
    addr = if decide (debugAddr f = "")
           then DebugAddr (Service (Publisher c0))
           else debugAddr f.
Proof.
  all_runs w f; rewrite Hmain; intros Hin; in_run Hin;
    injection Hin as -> ->; exists c0;
    by rewrite apply_overrides_Syslog, apply_overrides_DebugAddr.
Qed.

(** X9.  A run uses one bundle source: once a chain has been loaded, the
    legacy bundle file is not. *)
Theorem one_bundle_source_per_run w f chain file :
  LoadChain_call chain ∈ trace (main w f) →
  LoadCertBundle_call file ∉ trace (main w f).
Proof.
  all_runs w f; rewrite Hmain; intros Hin Hin'; in_run Hin; in_run Hin'.
Qed.

(** X14.  The configuration file is read exactly when [flag.Parse] has
    returned and [-config] is non-empty, and it is the file named that is
    read.  With an empty [-config], [main] shows the usage and exits with
    status 1 having called nothing else; and when [flag.Parse] ends the
    process itself, nothing is read. *)
Theorem config_read_iff_named w p path :
  (ReadConfigFile_call path ∈ trace (program w p) ↔
   ∃ f, p = Parsed f ∧ configFile f ≠ "" ∧ path = configFile f) ∧
  (∀ f, p = Parsed f → configFile f = "" →
        program w p = ([flag_Usage], Exit 1)) ∧
  (∀ code, p = Usage_exit code →
           program w p = ([flag_Usage], Exit code)).
Proof.
  split; [|split].
  - destruct p as [f|code]; cbn [program]; split.
    + all_runs w f; rewrite Hmain; intros Hin; in_run Hin;
        try destruct Hcfg as (Hfile & _);
        injection Hin as ->; by exists f.
    + intros (f' & [= <-] & Hnamed & ->).
      all_runs w f; rewrite Hmain; try done;
        unfold trace, startup_calls; cbn [fst]; rewrite ?elem_of_app;
        try (left; by left); by left.
    + intros Hin. cbn in Hin. split_elem_of Hin.
    + by intros (f & [=] & _).
  - intros f -> Hempty. cbn [program]. unfold main.
    by rewrite decide_True by done.
  - by intros code ->.
Qed.

(** X6.  When the TLS configuration of the file cannot be loaded, the
    process ends with status 1 whatever else happens, the submission
    service is never constructed, and neither the listener nor the health
    endpoint is created. *)
Theorem tls_failure_is_fatal w f c e :
  ReadConfigFile w (configFile f) = Ok c →
  TLS_Load w (TLS (Service (Publisher c))) = Some e →
  exit_status (main w f) = 1%Z ∧
  (∀ b bs ua, publisher_New b bs ua ∉ trace (main w f)) ∧
  (∀ ev, ev ∈ trace (main w f) → creates_endpoint ev = false).
Proof.
  intros Hread0 Htls0.
  all_runs w f; rewrite Hmain;
    try (destruct Hcfg as (_ & Hread & _));
    try (rewrite Hread0 in Hread; injection Hread as <-);
    try (rewrite apply_overrides_TLS in Htls; congruence);
    (split; [done|]); (split; [intros b bs ua Hin|intros ev Hin]);
    in_run Hin; by subst.
Qed.


(** X8.  On the legacy path a bundle file that cannot be loaded is fatal:
    the run reports the loader's error under "Failed to load CT
    submission bundle" right after the call, exits with status 1, and
    constructs no submission service. *)
Theorem legacy_load_failure_is_fatal w f c0 e :
  reads_config w f c0 →
  Chains (Publisher c0) = None →
  IntermediateBundleFilename (CT (Common c0)) ≠ "" →
  LoadCertBundle w (IntermediateBundleFilename (CT (Common c0))) = Err e →
  main w f =
    (startup_calls f c0 ++
       [LoadCertBundle_call (IntermediateBundleFilename (CT (Common c0)));
        Failure "Failed to load CT submission bundle" e],
     Exit 1) ∧
  (∀ b bs ua, publisher_New b bs ua ∉ trace (main w f)).
Proof.
  intros Hcfg0 Hchains0 Hlegacy0 Hload0.
  assert (main w f =
            (startup_calls f c0 ++
               [LoadCertBundle_call (IntermediateBundleFilename (CT (Common c0)));
                Failure "Failed to load CT submission bundle" e],
             Exit 1)) as Hmain.
  { rewrite (main_with_source w f c0 Hcfg0) by (by right).
    unfold resolve_bundles.
    rewrite apply_overrides_Chains, apply_overrides_Common, Hchains0, Hload0.
    by step. }
  split; [done|]. rewrite Hmain. intros b bs ua Hin. by in_run Hin.
Qed.

(** ** The loop, call by call *)



(** X11.  When several configured chains resolve to the same issuer, the
    entry of the mapping for that issuer is the bundle of the last of
    them in configuration order: each pass of the loop replaces what an
    earlier pass stored under the same identifier. *)
Theorem last_chain_for_issuer_wins w c l rs1 r rs2 :
  Chains (Publisher c) = Some l →
  chains_load w l (rs1 ++ r :: rs2) →
  NameID w r.1 ∉ issuer_ids w rs2 →
  ∃ bundles,
    resolve_bundles w c = (map LoadChain_call l, Ret ([], bundles)) ∧
    bundles !! NameID w r.1 = Some r.2.
Proof.
  intros Hl Hall Hlater.
  exists (foldl (store w) ∅ (rs1 ++ r :: rs2)). split.
  - rewrite (resolve_bundles_chains w c l) by done.
    rewrite (load_chains_ok w l (rs1 ++ r :: rs2)) by done. by step.
  - by apply last_chain_for_issuer_is_stored.
Qed.

(** X12.  Everything is in place before [main] serves.  In the sequence of
    calls [main] makes on its own goroutine, [Serve] occurs at most once;
    before it the submission service has been constructed and registered,
    the health server registered, and the signal watcher started; and the
    only call [main] can make after it is the report of the error [Serve]
    returned.  (What the watcher's closure calls, on its own goroutine
    while [Serve] runs, is [shutdown_callback], not part of this
    sequence.) *)
Theorem all_is_set_up_before_serve w f :
  Serve_call ∈ trace (main w f) →
  ∃ t1 t2,
    trace (main w f) = t1 ++ Serve_call :: t2 ∧
    (Serve_call ∉ t1) ∧
    (∃ b bs ua, publisher_New b bs ua ∈ t1) ∧
    RegisterPublisherServer ∈ t1 ∧
    RegisterHealthServer ∈ t1 ∧
    go_CatchSignals ∈ t1 ∧
    (t2 = [] ∨ ∃ e, t2 = [Failure "Publisher gRPC service failed" e]).
Proof.
  all_runs w f; rewrite Hmain; intros Hin; try (exfalso; in_run Hin; done);
    clear Hin; unfold trace; cbn [fst];
    match goal with
    | |- context [?S ++ ?L ++ serve_calls ?c ?b ?bs ++ ?T] =>
        exists (S ++ L ++ take 10 (serve_calls c b bs)), T
    | |- context [?S ++ ?L ++ serve_calls ?c ?b ?bs] =>
        exists (S ++ L ++ take 10 (serve_calls c b bs)), []
    end;
    (split; [by rewrite <- !(assoc_L (++))|]);
    (split; [intros Hin; in_run Hin|]);
    (split; [eexists _, _, _|]);
    unfold serve_calls; cbn [take]; rewrite ?elem_of_app, ?elem_of_cons;
    repeat split;
    first [ solve [repeat (first [by left | right])]
          | by left
          | right; by eexists ].
Qed.

(** X13.  The legacy loop appends, it never reorders or drops: the bundle
    it returns is the bundle it started from followed by one blob per
    certificate of the file, the i-th blob being the raw bytes of the i-th
    certificate. *)
Theorem legacy_bundle_in_file_order (bundle : list ASN1Cert)
    (pemBundle : list x509_Certificate) :
  length (append_certs bundle pemBundle) = length bundle + length pemBundle ∧
  (∀ i, i < length bundle →
        append_certs bundle pemBundle !! i = bundle !! i) ∧
  (∀ i, append_certs bundle pemBundle !! (length bundle + i) =
        (λ cert, {| Data := Raw cert |}) <$> pemBundle !! i).
Proof.
  rewrite append_certs_flat. unfold flat_bundle. split; [|split].
  - by rewrite length_app, length_map.
  - intros i Hi. by apply lookup_app_l.
  - intros i. rewrite lookup_app_r by lia.
    replace (length bundle + i - length bundle) with i by lia.
    apply (list_lookup_fmap (λ cert, {| Data := Raw cert |})).
Qed.

(** X15.  The submission service is never constructed with an empty user
    agent. *)
Theorem user_agent_never_empty w f b bs ua :
  publisher_New b bs ua ∈ trace (main w f) → ua ≠ "".
Proof.
  intros Hin.
  apply main_serve_event in Hin as (c & _ & b' & bs' & _ & _ & _ & _ & Hin);
    [|done].
  apply serve_publisher_New in Hin as (_ & _ & ->).
  rewrite apply_overrides_UserAgent. by case_decide.
Qed.

End Coverage.

(** * Concrete runs for the rest of [main] *)

Section Coverage_runs.

Import Example.


Lemma grpc_address_override_witness :
  Address (GRPC (Service (Publisher cfg_chains))) = ":9091" ∧
  NewServer_call {| Address := ":7000" |}
    ∈ trace (main (world cfg_chains None) cmdline_override) ∧
  Address {| Address := ":7000" |} =
    (if decide (grpcAddr cmdline_override = "")
     then Address (GRPC (Service (Publisher cfg_chains)))
     else grpcAddr cmdline_override).
Proof.
  split; [reflexivity|].
  assert (NewServer_call {| Address := ":7000" |}
            ∈ trace (main (world cfg_chains None) cmdline_override)) as Hin.
  { apply list_elem_of_lookup_2 with 12. vm_compute. reflexivity. }
  split; [exact Hin|].
  apply (grpc_address_override (world cfg_chains None) cmdline_override
           cfg_chains {| Address := ":7000" |}).
  - reflexivity.
  - exact Hin.
Defined.

Lemma debug_address_override_witness :
  StatsAndLogging tt ":7001"
    ∈ trace (main (world cfg_chains None) cmdline_override) ∧
  ∃ c0,
    reads_config (world cfg_chains None) cmdline_override c0 ∧
    tt = Syslog c0 ∧
    ":7001" = (if decide (debugAddr cmdline_override = "")
               then DebugAddr (Service (Publisher c0))
               else debugAddr cmdline_override).
Proof.
  assert (StatsAndLogging tt ":7001"
            ∈ trace (main (world cfg_chains None) cmdline_override)) as Hin.
  { apply list_elem_of_lookup_2 with 3. vm_compute. reflexivity. }
  split; [exact Hin|].
  exact (debug_address_override (world cfg_chains None) cmdline_override
           tt ":7001" Hin).
Defined.

Lemma tls_failure_is_fatal_witness :
  TLS_Load (world' cfg_chains None) (TLS (Service (Publisher cfg_chains)))
    = Some "no key" ∧
  exit_status (main (world' cfg_chains None) cmdline) = 1%Z ∧
  (∀ b bs ua,
     publisher_New b bs ua ∉ trace (main (world' cfg_chains None) cmdline)) ∧
  (∀ ev, ev ∈ trace (main (world' cfg_chains None) cmdline) →
         creates_endpoint ev = false).
Proof.
  split; [reflexivity|].
  apply (tls_failure_is_fatal (world' cfg_chains None) cmdline cfg_chains
           "no key").
  - reflexivity.
  - reflexivity.
Defined.


Lemma legacy_load_failure_is_fatal_witness :
  exit_status (main (world (cfg "ua" None "missing.pem") None) cmdline) = 1%Z ∧
  ∀ b bs ua,
    publisher_New b bs ua ∉
      trace (main (world (cfg "ua" None "missing.pem") None) cmdline).
Proof.
  destruct (legacy_load_failure_is_fatal
              (world (cfg "ua" None "missing.pem") None) cmdline
              (cfg "ua" None "missing.pem") "cannot load missing.pem")
    as (Hmain & Hnew).
  - apply example_reads_config.
  - reflexivity.
  - discriminate.
  - reflexivity.
  - split; [by rewrite Hmain|exact Hnew].
Defined.

Lemma one_bundle_source_per_run_witness :
  LoadChain_call ["r3.pem"; "root-x1.pem"]
    ∈ trace (main (world (cfg "ua" (Some two_for_r3) "bundle.pem") None) cmdline) ∧
  (LoadCertBundle_call "bundle.pem"
    ∉ trace (main (world (cfg "ua" (Some two_for_r3) "bundle.pem") None) cmdline)).
Proof.
  assert (LoadChain_call ["r3.pem"; "root-x1.pem"]
            ∈ trace (main (world (cfg "ua" (Some two_for_r3) "bundle.pem") None)
                          cmdline)) as Hin.
  { apply list_elem_of_lookup_2 with 5. vm_compute. reflexivity. }
  split; [exact Hin|].
  exact (one_bundle_source_per_run
           (world (cfg "ua" (Some two_for_r3) "bundle.pem") None) cmdline
           ["r3.pem"; "root-x1.pem"] "bundle.pem" Hin).
Defined.


Lemma last_chain_for_issuer_wins_witness :
  ∃ bundles,
    resolve_bundles (world cfg_chains None) cfg_chains =
      (map LoadChain_call two_for_r3, Ret ([], bundles)) ∧
    bundles !! 1%Z = Some [root_x2].
Proof.
  apply (last_chain_for_issuer_wins (world cfg_chains None) cfg_chains
           two_for_r3 [(1%Z, [root_x1])] (1%Z, [root_x2]) [(2%Z, [root_x2])]).
  - reflexivity.
  - repeat constructor.
  - intros Hin. apply elem_of_cons in Hin as [Hin|Hin]; [discriminate Hin|].
    by apply elem_of_nil in Hin.
Defined.

Lemma all_is_set_up_before_serve_witness :
  ∃ t1 t2,
    trace (main (world cfg_legacy (Some "boom")) cmdline) =
      t1 ++ Serve_call :: t2 ∧
    go_CatchSignals ∈ t1 ∧
    (t2 = [] ∨ ∃ e, t2 = [Failure "Publisher gRPC service failed" e]).
Proof.
  destruct (all_is_set_up_before_serve (world cfg_legacy (Some "boom")) cmdline)
    as (t1 & t2 & Htrace & _ & _ & _ & _ & Hwatch & Htail).
  - apply list_elem_of_lookup_2 with 16. vm_compute. reflexivity.
  - exists t1, t2. split; [exact Htrace|]. split; [exact Hwatch|exact Htail].
Defined.

Lemma user_agent_never_empty_witness :
  publisher_New [] bundles_for_r3 "certificate-transparency-go/1.0"
    ∈ trace (main (world cfg_chains None) cmdline) ∧
  "certificate-transparency-go/1.0" ≠ "".
Proof.
  assert (publisher_New [] bundles_for_r3 "certificate-transparency-go/1.0"
            ∈ trace (main (world cfg_chains None) cmdline)) as Hin.
  { apply list_elem_of_lookup_2 with 10. vm_compute. reflexivity. }
  split; [exact Hin|].
  exact (user_agent_never_empty (world cfg_chains None) cmdline
           [] bundles_for_r3 "certificate-transparency-go/1.0" Hin).
Defined.

End Coverage_runs.
